(** * The rule evaluation engine of hcp-config-validator

    A shallow embedding of [validator/rules_engine.py]: the evaluator
    [evaluate_rule], its single-value predicate [_eval_single] and the
    runner [run_rules_for_file], over a model of the Python values that
    rules and parsed configuration documents are made of. *)

From stdpp Require Import gmap strings pretty list fin_maps.
From Stdlib Require Import ZArith Ascii String PrimFloat FloatOps SpecFloat.

Local Open Scope Z_scope.

(** ** Python values

    What [yaml.safe_load], [json.load] and [hcl2.load] produce and what
    [jmespath.search] returns: [None], booleans, integers, floats (IEEE
    binary64), strings, lists and string-keyed dictionaries. *)

Inductive value : Type :=
| VNone
| VBool (b : bool)
| VInt (z : Z)
| VFloat (f : float)
| VStr (s : string)
| VList (l : list value)
| VDict (d : gmap string value).

(** ** Exceptions

    A Python call either returns or raises; [res] keeps the class of the
    exception raised. *)

Inductive exn : Type :=
| TypeError
| ValueError
| AttributeError
| OverflowError
| LibraryError.

Inductive res (A : Type) : Type :=
| Ok (a : A)
| Raise (e : exn).

Arguments Ok {A} a.
Arguments Raise {A} e.

#[global] Instance res_ret : MRet res := fun A a => Ok a.
#[global] Instance res_bind : MBind res := fun A B k m =>
  match m with
  | Ok a => k a
  | Raise e => Raise e
  end.
#[global] Instance res_fmap : FMap res := fun A B f m =>
  match m with
  | Ok a => Ok (f a)
  | Raise e => Raise e
  end.

Definition returns {A} (m : res A) : Prop := exists a, m = Ok a.

(** [try: m except Exception: d] *)
Definition try_except {A} (m : res A) (d : A) : A :=
  match m with
  | Ok a => a
  | Raise _ => d
  end.

(** ** Numbers

    [bool] is a subclass of [int]; integers and floats compare by exact
    numeric value. *)

Inductive num : Type :=
| NInt (z : Z)
| NFloat (f : float).

Definition as_num (v : value) : option num :=
  match v with
  | VBool b => Some (NInt (if b then 1 else 0))
  | VInt z => Some (NInt z)
  | VFloat f => Some (NFloat f)
  | _ => None
  end.

(** Exact comparison of an integer with a float; [None] for a NaN. *)
Definition Z_float_compare (z : Z) (f : float) : option comparison :=
  match Prim2SF f with
  | S754_nan => None
  | S754_zero _ => Some (z ?= 0)
  | S754_infinity neg => Some (if neg then Gt else Lt)
  | S754_finite neg m e =>
      let sm := if neg then Z.neg m else Z.pos m in
      Some (if 0 <=? e then z ?= sm * 2 ^ e else z * 2 ^ (- e) ?= sm)
  end.

Definition float_compare (f g : float) : option comparison :=
  match PrimFloat.compare f g with
  | FEq => Some Eq
  | FLt => Some Lt
  | FGt => Some Gt
  | FNotComparable => None
  end.

Definition num_compare (a b : num) : option comparison :=
  match a, b with
  | NInt x, NInt y => Some (x ?= y)
  | NInt x, NFloat g => Z_float_compare x g
  | NFloat f, NInt y => CompOpp <$> Z_float_compare y f
  | NFloat f, NFloat g => float_compare f g
  end.

(** [float(n)] for an integer [n]: round to nearest even, and
    [OverflowError] beyond the range of a double. *)
Definition float_of_Z (z : Z) : res float :=
  match binary_normalize 53 1024 z 0 false with
  | S754_infinity _ => Raise OverflowError
  | sf => Ok (SF2Prim sf)
  end.

(** ** Strings *)

(** [s.startswith(p)] *)
Definition startswith (s p : string) : bool := String.prefix p s.

(** [s.endswith(p)] *)
Definition endswith (s p : string) : bool :=
  let n := String.length s in
  let k := String.length p in
  (k <=? n)%nat && String.eqb (String.substring (n - k)%nat k s) p.

(** [p in s] for two strings *)
Fixpoint str_contains (s p : string) : bool :=
  String.prefix p s ||
  match s with
  | EmptyString => false
  | String _ s' => str_contains s' p
  end.

(** [s.replace(old, new)] for a non-empty [old]: occurrences are replaced
    from left to right and never overlap; [skip] counts the characters of
    the occurrence just replaced that are still to be dropped. *)
Fixpoint replace_from (old new s : string) (skip : nat) : string :=
  match s with
  | EmptyString => EmptyString
  | String c s' =>
      match skip with
      | S k => replace_from old new s' k
      | O =>
          if String.prefix old s
          then new +:+ replace_from old new s' (Nat.pred (String.length old))
          else String c (replace_from old new s' O)
      end
  end.

Definition str_replace (s old new : string) : string :=
  replace_from old new s O.

(** ** Truth value, equality, ordering and membership *)

(** [bool(v)] *)
Definition truthy (v : value) : bool :=
  match v with
  | VNone => false
  | VBool b => b
  | VInt z => negb (z =? 0)
  | VFloat f => negb (PrimFloat.eqb f 0%float)
  | VStr s => negb (String.eqb s EmptyString)
  | VList l => negb (Nat.eqb (List.length l) 0)
  | VDict d => negb (Nat.eqb (size d) 0)
  end.

(** [a == b] *)
Fixpoint py_eq (a b : value) : bool :=
  match a, b with
  | VNone, VNone => true
  | VStr s, VStr t => String.eqb s t
  | VList l, VList m =>
      (fix all2 (l : list value) (m : list value) : bool :=
         match l, m with
         | [], [] => true
         | x :: l', y :: m' => py_eq x y && all2 l' m'
         | _, _ => false
         end) l m
  | VDict d, VDict e =>
      Nat.eqb (size d) (size e) &&
      map_fold (fun k x acc =>
                  match e !! k with
                  | Some y => py_eq x y && acc
                  | None => false
                  end) true d
  | _, _ =>
      match as_num a, as_num b with
      | Some x, Some y =>
          match num_compare x y with
          | Some Eq => true
          | _ => false
          end
      | _, _ => false
      end
  end.

(** The two ordering operators the engine uses. *)
Inductive ordop : Type := OpLt | OpGt.

Definition ord_holds (op : ordop) (c : comparison) : bool :=
  match op, c with
  | OpLt, Lt => true
  | OpGt, Gt => true
  | _, _ => false
  end.

(** [a < b] and [a > b]: numbers by value, strings and lists
    lexicographically, [TypeError] for anything else. *)
Fixpoint py_ord (op : ordop) (a b : value) : res bool :=
  match a, b with
  | VStr s, VStr t => Ok (ord_holds op (String.compare s t))
  | VList l, VList m =>
      (fix lex (l : list value) (m : list value) : res bool :=
         match l, m with
         | x :: l', y :: m' => if py_eq x y then lex l' m' else py_ord op x y
         | [], [] => Ok false
         | [], _ :: _ => Ok (ord_holds op Lt)
         | _ :: _, [] => Ok (ord_holds op Gt)
         end) l m
  | _, _ =>
      match as_num a, as_num b with
      | Some x, Some y =>
          Ok (match num_compare x y with
              | Some c => ord_holds op c
              | None => false
              end)
      | _, _ => Raise TypeError
      end
  end.

(** [item in container] *)
Definition py_in (item container : value) : res bool :=
  match container with
  | VList l => Ok (existsb (fun x => py_eq x item) l)
  | VStr s =>
      match item with
      | VStr p => Ok (str_contains s p)
      | _ => Raise TypeError
      end
  | VDict d =>
      match item with
      | VList _ | VDict _ => Raise TypeError
      | VStr k => Ok (bool_decide (is_Some (d !! k)))
      | _ => Ok false
      end
  | _ => Raise TypeError
  end.

Definition is_none (v : value) : bool :=
  match v with
  | VNone => true
  | _ => false
  end.

(** ** Library calls

    The engine calls [jmespath.search], [re.search] and the built-ins
    [str], [float] and [int]; none of them is code of this repository.
    They are taken as parameters:
    - [jmespath_search expr doc] is [jmespath.search(expr, doc)];
    - [re_search p s] is [bool(re.search(p, s))] for a string pattern
      [p], raising on a pattern that does not compile;
    - [str_of v] is [str(v)] for a value [v] that is not a string;
    - [float_of_str s] and [int_of_str s] are [float(s)] and [int(s)]
      for a string [s]. *)

Record library : Type := Library {
  jmespath_search : value -> value -> res value;
  re_search : string -> string -> res bool;
  str_of : value -> string;
  float_of_str : string -> res float;
  int_of_str : string -> res Z
}.

(** A rule is the dictionary [yaml.safe_load] made of one rule entry. *)
Abbreviation rule := (gmap string value).

(** [d.get(k, dflt)]; [d.get(k)] is [dict_get d k VNone]. *)
Definition dict_get (d : gmap string value) (k : string) (dflt : value)
  : value :=
  default dflt (d !! k).

(** The dictionary [evaluate_rule] returns. *)
Record verdict : Type := Verdict {
  id : value;
  title : value;
  severity : value;
  passed : bool;
  observed : value;
  message : value;
  remediation : value;
  reference : value
}.

(** The dictionary literal at the end of [evaluate_rule]. *)
Definition make_verdict (r : rule) (passed : bool) (observed : value)
  : verdict :=
  {| id := dict_get r "id" VNone;
     title := dict_get r "title" VNone;
     severity := dict_get r "severity" (VStr "info");
     passed := passed;
     observed := observed;
     message := dict_get r "message" VNone;
     remediation := dict_get r "remediation" VNone;
     reference := dict_get r "reference" VNone |}.

(** [isinstance(v, list)] *)
Definition is_list (v : value) : bool :=
  match v with
  | VList _ => true
  | _ => false
  end.

(** The operator names of the engine. *)
Definition OPERATORS : list string :=
  ["exists"; "equals"; "in"; "regex"; "gt"; "lt"; "not_equals"; "absent"].

(** [all(f(x) for x in l)] and [any(f(x) for x in l)]: the generator is
    consumed up to the first element that decides the result, and an
    exception raised on the way propagates. *)
Fixpoint py_all {A} (f : A -> res bool) (l : list A) : res bool :=
  match l with
  | [] => Ok true
  | x :: l' => b ← f x; if b : bool then py_all f l' else Ok false
  end.

Fixpoint py_any {A} (f : A -> res bool) (l : list A) : res bool :=
  match l with
  | [] => Ok false
  | x :: l' => b ← f x; if b : bool then Ok true else py_any f l'
  end.

(** The flattening loop of [evaluate_rule]: [flat] starts empty and
    each item either extends it or is appended to it. *)
Definition flatten_step (flat : list value) (item : value) : list value :=
  match item with
  | VList sub => flat ++ sub
  | _ => flat ++ [item]
  end.

Definition flatten_one (items : list value) : list value :=
  fold_left flatten_step items [].

Section Engine.

Variable L : library.

(** [str(v)] *)
Definition py_str (v : value) : string :=
  match v with
  | VStr s => s
  | _ => str_of L v
  end.

(** [float(v)] *)
Definition py_float (v : value) : res float :=
  match v with
  | VBool b => Ok (if b then 1%float else 0%float)
  | VInt z => float_of_Z z
  | VFloat f => Ok f
  | VStr s => float_of_str L s
  | _ => Raise TypeError
  end.

(** [bool(re.search(pattern, s))] *)
Definition py_re_search (pattern : value) (s : string) : res bool :=
  match pattern with
  | VStr p => re_search L p s
  | _ => Raise TypeError
  end.

(** The local function of [_eval_single]. *)
Definition tls_version_to_num (v : value) : res value :=
  match v with
  | VNone => Ok (VInt 0)
  | VStr s =>
      if startswith s "tls"
      then VInt <$> int_of_str L (str_replace s "tls" EmptyString)
      else Ok v
  | _ => Ok v
  end.

(** [rule and rule.get("jmespath", "").endswith("tls_min_version")],
    as a condition: an absent or empty [rule] is false, and a path
    that is not a string has no [endswith]. *)
Definition tls_rule (r : option rule) : res bool :=
  match r with
  | None => Ok false
  | Some r =>
      if truthy (VDict r)
      then match dict_get r "jmespath" (VStr EmptyString) with
           | VStr p => Ok (endswith p "tls_min_version")
           | _ => Raise AttributeError
           end
      else Ok false
  end.

(** [operator == name] *)
Definition op_is (operator : value) (name : string) : bool :=
  py_eq operator (VStr name).

Definition _eval_single (operator observed expected : value)
    (r : option rule) : res bool :=
  if op_is operator "exists" then
    Ok (negb (is_none observed))
  else if op_is operator "absent" then
    Ok (is_none observed)
  else if op_is operator "equals" then
    tls ← tls_rule r;
    if tls : bool then
      a ← tls_version_to_num observed;
      b ← tls_version_to_num expected;
      Ok (py_eq a b)
    else Ok (py_eq observed expected)
  else if op_is operator "not_equals" then
    tls ← tls_rule r;
    if tls : bool then
      a ← tls_version_to_num observed;
      b ← tls_version_to_num expected;
      Ok (negb (py_eq a b))
    else Ok (negb (py_eq observed expected))
  else if op_is operator "in" then
    if is_none observed then Ok false else py_in observed expected
  else if op_is operator "regex" then
    if is_none observed then Ok false
    else py_re_search expected (py_str observed)
  else if op_is operator "gt" then
    tls ← tls_rule r;
    if tls : bool then
      a ← tls_version_to_num observed;
      b ← tls_version_to_num expected;
      py_ord OpGt a b
    else
      Ok (try_except
            (x ← py_float observed; y ← py_float expected;
             Ok (PrimFloat.ltb y x))
            false)
  else if op_is operator "lt" then
    tls ← tls_rule r;
    if tls : bool then
      a ← tls_version_to_num observed;
      b ← tls_version_to_num expected;
      py_ord OpLt a b
    else
      Ok (try_except
            (x ← py_float observed; y ← py_float expected;
             Ok (PrimFloat.ltb x y))
            false)
  else Ok false.

(** The aggregate over a flattened list observation. The three
    branches for [exists], [absent] and the rest are the same call. *)
Definition aggregate (operator expected : value) (flat : list value)
  : res bool :=
  if op_is operator "regex" then
    negb <$> py_any (fun item => _eval_single operator item expected None) flat
  else if op_is operator "exists" then
    py_all (fun item => _eval_single operator item expected None) flat
  else if op_is operator "absent" then
    py_all (fun item => _eval_single operator item expected None) flat
  else
    py_all (fun item => _eval_single operator item expected None) flat.

(** The observation: [None] unless [expr] is truthy, and [None] when
    the search raises. *)
Definition extract (expr doc : value) : value :=
  if truthy expr then try_except (jmespath_search L expr doc) VNone
  else VNone.

Definition evaluate_rule (r : rule) (doc : value) : res verdict :=
  let expr := dict_get r "jmespath" VNone in
  let operator := dict_get r "operator" (VStr "exists") in
  let expected := dict_get r "expected" VNone in
  let observed := extract expr doc in
  '(passed, observed) ←
    match observed with
    | VList items =>
        let flat := flatten_one items in
        passed ← aggregate operator expected flat;
        Ok (passed, VList flat)
    | _ =>
        passed ← _eval_single operator observed expected (Some r);
        Ok (passed, observed)
    end;
  Ok (make_verdict r passed observed).

(** The loop of [run_rules_for_file], [results] being the list it
    appends to. *)
Fixpoint run_loop (rules : list rule) (parsed_doc : value)
    (results : list verdict) : res (list verdict) :=
  match rules with
  | [] => Ok results
  | r :: rules' =>
      v ← evaluate_rule r parsed_doc;
      run_loop rules' parsed_doc (results ++ [v])
  end.

Definition run_rules_for_file (rules : list rule) (parsed_doc : value)
  : res (list verdict) :=
  run_loop rules parsed_doc [].

End Engine.

(** ** A reference library

    Concrete library calls for the examples below. Each one implements
    the fragment of the real call that the examples use and rejects
    everything else:
    - path expressions made of identifiers, [[n]] and [[*]] joined by
      dots, with the projection semantics of JMESPath;
    - patterns without metacharacters, for which [re.search] is a
      substring test;
    - decimal literals for [int] and [float]. *)

Module Ref.

Inductive step : Type :=
| Field (name : string)
| Index (n : nat)
| Star.

Definition is_digit (c : ascii) : bool :=
  let n := nat_of_ascii c in (48 <=? n)%nat && (n <=? 57)%nat.

Definition is_letter (c : ascii) : bool :=
  let n := nat_of_ascii c in
  ((65 <=? n)%nat && (n <=? 90)%nat) || ((97 <=? n)%nat && (n <=? 122)%nat)
  || Nat.eqb n 95.

Fixpoint all_chars (p : ascii -> bool) (s : string) : bool :=
  match s with
  | EmptyString => true
  | String c s' => p c && all_chars p s'
  end.

(** The value of a non-empty string of decimal digits. *)
Fixpoint digits_from (s : string) (acc : Z) : Z :=
  match s with
  | EmptyString => acc
  | String c s' => digits_from s' (10 * acc + (Z.of_nat (nat_of_ascii c) - 48))
  end.

Definition decimal (s : string) : option Z :=
  match s with
  | EmptyString => None
  | _ => if all_chars is_digit s then Some (digits_from s 0) else None
  end.

(** Split at every occurrence of [sep]; [cur] is the piece being read,
    in reverse. *)
Fixpoint split_on (sep : ascii) (s : string) (cur : string) : list string :=
  match s with
  | EmptyString => [String.rev cur]
  | String c s' =>
      if Ascii.eqb c sep then String.rev cur :: split_on sep s' EmptyString
      else split_on sep s' (String c cur)
  end.

(** One bracket suffix, the text between [[] and []]. *)
Definition bracket (s : string) : option step :=
  if String.eqb s "*" then Some Star
  else match decimal s with
       | Some n => Some (Index (Z.to_nat n))
       | None => None
       end.

(** A dot-separated segment: [name], then any number of brackets. *)
Definition segment (s : string) : option (list step) :=
  match split_on "[" s EmptyString with
  | name :: suffixes =>
      match name with
      | String c _ =>
          if is_letter c && all_chars (fun c => is_letter c || is_digit c) name
          then
            brs ← mapM (fun b =>
                          match String.rev b with
                          | String "]" body => bracket (String.rev body)
                          | _ => None
                          end) suffixes;
            Some (Field name :: brs)
          else None
      | EmptyString => None
      end
  | [] => None
  end.

Definition parse (s : string) : option (list step) :=
  match mapM segment (split_on "." s EmptyString) with
  | Some segments => Some (List.concat segments)
  | None => None
  end.

Definition field (name : string) (v : value) : value :=
  match v with
  | VDict d => default VNone (d !! name)
  | _ => VNone
  end.

Definition index (n : nat) (v : value) : value :=
  match v with
  | VList l => default VNone (l !! n)
  | _ => VNone
  end.

(** A projection applies the rest of the path to every element and
    drops the null results. *)
Fixpoint eval (path : list step) (v : value) : value :=
  match path with
  | [] => v
  | Field name :: rest => eval rest (field name v)
  | Index n :: rest => eval rest (index n v)
  | Star :: rest =>
      match v with
      | VList l =>
          VList (filter (fun x => is_none x = false) (map (eval rest) l))
      | _ => VNone
      end
  end.

Definition search (expr doc : value) : res value :=
  match expr with
  | VStr s =>
      match parse s with
      | Some path => Ok (eval path doc)
      | None => Raise LibraryError
      end
  | _ => Raise TypeError
  end.

Definition is_literal (c : ascii) : bool :=
  is_letter c || is_digit c || Ascii.eqb c " ".

Definition regex_search (p s : string) : res bool :=
  if all_chars is_literal p then Ok (str_contains s p)
  else Raise LibraryError.

Definition str_of (v : value) : string :=
  match v with
  | VNone => "None"
  | VBool true => "True"
  | VBool false => "False"
  | VInt z => pretty z
  | _ => EmptyString
  end.

Definition int_of_str (s : string) : res Z :=
  match decimal s with
  | Some z => Ok z
  | None => Raise ValueError
  end.

Definition float_of_str (s : string) : res float :=
  match decimal s with
  | Some z => float_of_Z z
  | None => Raise ValueError
  end.

Definition lib : library :=
  Library search regex_search str_of float_of_str int_of_str.

End Ref.


(** ** The evaluator over a store of objects

    In Python the rule and the document reach [evaluate_rule] as
    references to mutable objects, and the list [flat] is an object the
    function creates and then extends in place. Here the store maps
    references to values; the rule and the document are read through
    their references, [flat] is allocated at a reference that is not in
    use, and [extend] and [append] update the store at that reference.
    The library calls stay functions of the values they are given. *)

Module Store.

(** [flat = []] *)
Definition new_list (st : gmap positive value)
  : positive * gmap positive value :=
  let flat := fresh (dom st) in (flat, <[flat := VList []]> st).

(** [flat.extend(sub)] *)
Definition extend (flat : positive) (sub : list value)
    (st : gmap positive value) : gmap positive value :=
  alter (fun v => match v with
                  | VList l => VList (l ++ sub)
                  | _ => v
                  end) flat st.

(** [flat.append(item)] *)
Definition append (flat : positive) (item : value)
    (st : gmap positive value) : gmap positive value :=
  alter (fun v => match v with
                  | VList l => VList (l ++ [item])
                  | _ => v
                  end) flat st.

(** [for item in observed: ...] *)
Fixpoint flatten_loop (items : list value) (flat : positive)
    (st : gmap positive value) : gmap positive value :=
  match items with
  | [] => st
  | item :: items' =>
      flatten_loop items' flat
        match item with
        | VList sub => extend flat sub st
        | _ => append flat item st
        end
  end.

Section Engine.

Variable L : library.

Definition evaluate_rule (rule_ref doc_ref : positive)
    (st : gmap positive value) : res verdict * gmap positive value :=
  match st !! rule_ref, st !! doc_ref with
  | Some (VDict r), Some doc =>
      let expr := dict_get r "jmespath" VNone in
      let operator := dict_get r "operator" (VStr "exists") in
      let expected := dict_get r "expected" VNone in
      let observed := extract L expr doc in
      match observed with
      | VList items =>
          let '(flat, st) := new_list st in
          let st := flatten_loop items flat st in
          match st !! flat with
          | Some (VList observed) =>
              (passed ← aggregate L operator expected observed;
               Ok (make_verdict r passed (VList observed)), st)
          | _ => (Raise TypeError, st)
          end
      | _ =>
          (passed ← _eval_single L operator observed expected (Some r);
           Ok (make_verdict r passed observed), st)
      end
  | _, _ => (Raise TypeError, st)
  end.

(** [n] evaluations in a row, each in the store the previous one left. *)
Fixpoint evaluate_times (n : nat) (rule_ref doc_ref : positive)
    (st : gmap positive value) : list (res verdict) * gmap positive value :=
  match n with
  | O => ([], st)
  | S n' =>
      let '(v, st) := evaluate_rule rule_ref doc_ref st in
      let '(vs, st) := evaluate_times n' rule_ref doc_ref st in
      (v :: vs, st)
  end.

End Engine.

End Store.


(** ** Vocabulary of the statements *)

(** What the flattening loop makes of one item. *)
Definition splice (item : value) : list value :=
  match item with
  | VList sub => sub
  | _ => [item]
  end.

(** [operator] is one of [OPERATORS]. *)
Definition known_operator (operator : value) : bool :=
  existsb (op_is operator) OPERATORS.

(** The rule has no path expression, or one that is a string and does
    not end in [tls_min_version]. *)
Definition plain_path (r : rule) : bool :=
  match r !! "jmespath" with
  | None => true
  | Some (VStr p) => negb (endswith p "tls_min_version")
  | Some _ => false
  end.

(** [re.search] does not raise on the pattern, whatever the string. *)
Definition pattern_compiles (L : library) (pattern : value) : Prop :=
  forall s : string, returns (py_re_search L pattern s).


(** The comparison [cmp] of the two operands after [tls_version_to_num],
    the observed one first. *)
Definition tls_compare (L : library) (cmp : value -> value -> res bool)
    (observed expected : value) : res bool :=
  a ← tls_version_to_num L observed;
  b ← tls_version_to_num L expected;
  cmp a b.


(** The fields a rule is read through. *)
Definition rule_expr (r : rule) : value := dict_get r "jmespath" VNone.
Definition rule_operator (r : rule) : value :=
  dict_get r "operator" (VStr "exists").
Definition rule_expected (r : rule) : value := dict_get r "expected" VNone.

(** The observation [evaluate_rule] starts from. *)
Definition observation (L : library) (r : rule) (doc : value) : value :=
  extract L (rule_expr r) doc.


(** The predicate on a null observation when the TLS comparison is not
    in play, as a function of the operator and the expected value. *)
Definition null_predicate (operator expected : value) : bool :=
  if op_is operator "exists" then false
  else if op_is operator "absent" then true
  else if op_is operator "equals" then py_eq VNone expected
  else if op_is operator "not_equals" then negb (py_eq VNone expected)
  else false.


(** The four operators whose single-value branch consults the rule for
    the TLS comparison. *)
Definition is_comparison (operator : value) : bool :=
  op_is operator "equals" || op_is operator "not_equals"
  || op_is operator "gt" || op_is operator "lt".

(** What each of the four applies to the two version numbers. *)
Definition comparison_of (operator : value) : value -> value -> res bool :=
  if op_is operator "equals" then fun a b => Ok (py_eq a b)
  else if op_is operator "not_equals" then fun a b => Ok (negb (py_eq a b))
  else if op_is operator "gt" then py_ord OpGt
  else py_ord OpLt.

(** The values the single-value predicate is applied to: the items of
    the flattened list, or the observation itself. *)
Definition observed_values (obs : value) : list value :=
  match obs with
  | VList items => flatten_one items
  | _ => [obs]
  end.

(** The [regex] predicate by the library calls it makes: false on null,
    and otherwise what [re.search] finds for the pattern in the item, a
    string as it is and any other value through [str]; a pattern that is
    no string is a [TypeError]. *)
Definition regex_matches (L : library) (pattern item : value) : res bool :=
  match item with
  | VNone => Ok false
  | _ =>
      match pattern with
      | VStr p =>
          re_search L p (match item with VStr s => s | _ => str_of L item end)
      | _ => Raise TypeError
      end
  end.


(** ** Example rules and documents *)

Module Ex.

(** [{id: R1, jmespath: path, operator: operator, expected: expected}] *)
Definition rule_on (path operator : string) (expected : value) : rule :=
  {[ "id" := VStr "R1"; "jmespath" := VStr path;
     "operator" := VStr operator; "expected" := expected ]}.

(** [{xs: v}] *)
Definition doc_xs (v : value) : value := VDict {[ "xs" := v ]}.

(** [{listener: [{tls_min_version: v}]}] *)
Definition doc_listener (v : value) : value :=
  VDict {[ "listener" := VList [VDict {[ "tls_min_version" := v ]}] ]}.

(** [[[1, [2, 3]], 4]] *)
Definition nested : list value :=
  [VList [VInt 1; VList [VInt 2; VInt 3]]; VInt 4].

(** [{listener: [{tls_min_version: tls12}, {tls_min_version: tls13}]}] *)
Definition two_listeners : value :=
  VDict {[ "listener" :=
             VList [VDict {[ "tls_min_version" := VStr "tls12" ]};
                    VDict {[ "tls_min_version" := VStr "tls13" ]}] ]}.

(** [{jmespath: listener[*].tls_min_version, operator: gt,
      expected: tls11}] *)
Definition tls_floor : rule :=
  rule_on "listener[*].tls_min_version" "gt" (VStr "tls11").

End Ex.


(** ** Loading rule files

    [load_rules] takes one path or a list (or tuple) of such arguments,
    nested to any depth. Reading and parsing a file is a parameter, and
    so is the iteration of a string or a dictionary, which [extend]
    would go through item by item. *)

Inductive rule_paths : Type :=
| RulePath (path : string)
| RulePaths (paths : list rule_paths).

Section Loader.

(** [yaml.safe_load(open(path))] *)
Variable yaml_load_file : string -> res value.

(** [list(v)] for a string or a dictionary [v] *)
Variable items_of : value -> list value.

(** What [rules.extend(v)] appends. *)
Definition extended_by (v : value) : res (list value) :=
  match v with
  | VList l => Ok l
  | VStr _ | VDict _ => Ok (items_of v)
  | _ => Raise TypeError
  end.

(** The rules found in the content of one file. *)
Definition rules_in (data : value) : res (list value) :=
  match data with
  | VList l => Ok l
  | VDict d =>
      match d !! "rules" with
      | Some v => extended_by v
      | None => Ok []
      end
  | _ => Ok []
  end.

Fixpoint load_rules (path_or_list : rule_paths) : res (list value) :=
  match path_or_list with
  | RulePaths paths =>
      (fix each (paths : list rule_paths) (rules : list value)
         : res (list value) :=
         match paths with
         | [] => Ok rules
         | p :: paths' =>
             loaded ← load_rules p; each paths' (rules ++ loaded)
         end) paths []
  | RulePath path =>
      data ← yaml_load_file path;
      loaded ← rules_in data;
      Ok ([] ++ loaded)
  end.

End Loader.

(** ** The report and the exit status

    The commands of [main.py] and [cli.py] run the rules on every parsed
    file, collect one entry per file and, when a fail level is given,
    scan the report for a failed verdict at or above that level. *)

Record file_report : Type := FileReport {
  file : string;
  results : list verdict
}.

(** The loop that builds [report]. *)
Fixpoint report_loop (L : library) (all_rules : list rule)
    (files : list (string * value)) (report : list file_report)
  : res (list file_report) :=
  match files with
  | [] => Ok report
  | (path, parsed) :: files' =>
      results ← run_rules_for_file L all_rules parsed;
      report_loop L all_rules files'
        (report ++ [{| file := path; results := results |}])
  end.

Definition build_report (L : library) (all_rules : list rule)
    (files : list (string * value)) : res (list file_report) :=
  report_loop L all_rules files [].

(** How the scan can end early: [SystemExit(code)], or a failed lookup
    in [severity_order], [KeyError] for a key that is not there and
    [TypeError] for a key that cannot be hashed. *)
Inductive stop : Type :=
| SystemExit (code : Z)
| KeyError
| UnhashableKey.

(** [severity_order[key]] *)
Definition severity_order (key : value) : stop + nat :=
  match key with
  | VStr s =>
      if String.eqb s "info" then inr 0%nat
      else if String.eqb s "warning" then inr 1%nat
      else if String.eqb s "critical" then inr 2%nat
      else inl KeyError
  | VList _ | VDict _ => inl UnhashableKey
  | _ => inl KeyError
  end.

(** The condition of the inner [if]; the lookups are made for a failed
    verdict only, the one of the verdict first. *)
Definition at_or_above (fail_level : string) (r : verdict) : stop + bool :=
  if passed r then inr false
  else match severity_order (severity r) with
       | inl s => inl s
       | inr a =>
           match severity_order (VStr fail_level) with
           | inl s => inl s
           | inr b => inr (b <=? a)%nat
           end
       end.

Fixpoint scan_results (fail_level : string) (rs : list verdict)
  : option stop :=
  match rs with
  | [] => None
  | r :: rs' =>
      match at_or_above fail_level r with
      | inl s => Some s
      | inr true => Some (SystemExit 2)
      | inr false => scan_results fail_level rs'
      end
  end.

Fixpoint scan_report (fail_level : string) (report : list file_report)
  : option stop :=
  match report with
  | [] => None
  | entry :: report' =>
      match scan_results fail_level (results entry) with
      | Some s => Some s
      | None => scan_report fail_level report'
      end
  end.

(** [if fail_level: ...], [None] standing for a command that ends
    normally. *)
Definition fail_level_check (fail_level : option string)
    (report : list file_report) : option stop :=
  match fail_level with
  | Some level =>
      if String.eqb level EmptyString then None else scan_report level report
  | None => None
  end.

(** ** The figures of the console report *)

Record summary : Type := Summary {
  total_rules : nat;
  passed_rules : nat;
  failed_rules : nat;
  critical_failed : nat;
  warning_failed : nat;
  info_failed : nat
}.

(** [sum(1 for r in results if cond(r))] *)
Definition count (cond : verdict -> bool) (rs : list verdict) : nat :=
  List.length (List.filter cond rs).

Definition failed_as (level : string) (r : verdict) : bool :=
  negb (passed r) && py_eq (severity r) (VStr level).

Definition summarize (rs : list verdict) : summary :=
  let total := List.length rs in
  let passed_count := count passed rs in
  {| total_rules := total;
     passed_rules := passed_count;
     failed_rules := (total - passed_count)%nat;
     critical_failed := count (failed_as "critical") rs;
     warning_failed := count (failed_as "warning") rs;
     info_failed := count (failed_as "info") rs |}.

(** The condition under which [print_report] prints that no issue was
    found instead of the tables. *)
Definition no_issues (report : list file_report) : bool :=
  Nat.eqb (List.length report) 0
  || forallb (fun entry => forallb passed (results entry)) report.


(** ** Default values ([parser.py])

    The three [inject_..._defaults] functions are sequences of
    [if key not in cfg: cfg[key] = value]. They update the configuration
    in place and return it; here they return the updated value, a parsed
    document being a tree in which no dictionary is shared between two
    places. *)

(** [if key not in cfg: cfg[key] = dflt]: membership as [in] has it for
    the kind of value at hand, and assignment under a string key, which
    only a dictionary supports. *)
Definition default_key (key : string) (dflt : value) (cfg : value)
  : res value :=
  present ← py_in (VStr key) cfg;
  if present : bool then Ok cfg
  else match cfg with
       | VDict d => Ok (VDict (<[key := dflt]> d))
       | _ => Raise TypeError
       end.

(** A sequence of such statements, in the order of the table. *)
Fixpoint default_keys (defaults : list (string * value)) (cfg : value)
  : res value :=
  match defaults with
  | [] => Ok cfg
  | (key, dflt) :: defaults' =>
      cfg ← default_key key dflt cfg; default_keys defaults' cfg
  end.

Definition listener_defaults : list (string * value) :=
  [("tls_disable", VBool false);
   ("tls_min_version", VStr "tls12");
   ("tls_require_and_verify_client_cert", VBool false);
   ("address", VStr "127.0.0.1:8200");
   ("http_idle_timeout", VStr "5m");
   ("http_read_timeout", VStr "5m");
   ("http_write_timeout", VStr "5m");
   ("tcp_keepalive", VStr "0s")].

Definition vault_defaults : list (string * value) :=
  [("disable_mlock", VBool false);
   ("default_lease_ttl", VStr "768h");
   ("max_lease_ttl", VStr "768h");
   ("ui", VBool false)].

Definition consul_defaults : list (string * value) :=
  [("datacenter", VStr "dc1");
   ("data_dir", VStr "/opt/consul");
   ("log_level", VStr "INFO");
   ("ui", VBool false)].

Definition nomad_defaults : list (string * value) :=
  [("region", VStr "global");
   ("datacenter", VStr "dc1");
   ("data_dir", VStr "/opt/nomad");
   ("log_level", VStr "INFO");
   ("enable_syslog", VBool false)].

Definition inject_vault_defaults (cfg : value) : res value :=
  has_listener ← py_in (VStr "listener") cfg;
  cfg ← (if has_listener : bool then
           match cfg with
           | VDict d =>
               match d !! "listener" with
               | Some (VList listeners) =>
                   listeners ← mapM (default_keys listener_defaults) listeners;
                   Ok (VDict (<["listener" := VList listeners]> d))
               | _ => Ok cfg
               end
           | _ => Raise TypeError
           end
         else Ok cfg);
  default_keys vault_defaults cfg.

Definition inject_consul_defaults (cfg : value) : res value :=
  cfg ← default_keys consul_defaults cfg;
  has_addresses ← py_in (VStr "addresses") cfg;
  if has_addresses : bool then
    match cfg with
    | VDict d =>
        match d !! "addresses" with
        | Some (VDict addresses) =>
            addresses ← default_key "http" (VStr "127.0.0.1") (VDict addresses);
            Ok (VDict (<["addresses" := addresses]> d))
        | _ => Ok cfg
        end
    | _ => Raise TypeError
    end
  else Ok cfg.

Definition inject_nomad_defaults (cfg : value) : res value :=
  default_keys nomad_defaults cfg.

(** ['k1' in doc and 'k2' in doc and ...] *)
Definition has_keys (keys : list string) (doc : value) : res bool :=
  py_all (fun key => py_in (VStr key) doc) keys.

(** The product detection of [parse_file], the same in its HCL and in
    its YAML branch. *)
Definition inject_product_defaults (doc : value) : res value :=
  vault ← has_keys ["storage"; "listener"] doc;
  if vault : bool then inject_vault_defaults doc
  else
    nomad ← has_keys ["datacenter"; "data_dir"; "region"] doc;
    if nomad : bool then inject_nomad_defaults doc
    else
      consul ← has_keys ["datacenter"; "data_dir"] doc;
      if consul : bool then inject_consul_defaults doc else Ok doc.

(** ** Parsing and collecting files

    Reading a file, the three parsers and the file system are
    parameters. So is [normalize_vault_hcl] on a list of blocks, where it
    takes the first key of a dictionary, which depends on an insertion
    order that values do not record; on anything but a list it returns
    its argument. *)

Section Parser.

Variable read_text : string -> res string.
Variable json_loads : string -> res value.
Variable hcl2_loads : string -> res value.
Variable yaml_safe_load : string -> res value.
Variable normalize_blocks : list value -> res value.

Definition normalize_vault_hcl (parsed : value) : res value :=
  match parsed with
  | VList blocks => normalize_blocks blocks
  | _ => Ok parsed
  end.

Definition parse_file (path : string) : res value :=
  text ← read_text path;
  match json_loads text with
  | Ok parsed => Ok parsed
  | Raise _ =>
      match result ← hcl2_loads text;
            norm ← normalize_vault_hcl result;
            inject_product_defaults norm
      with
      | Ok norm => Ok norm
      | Raise _ =>
          match doc ← yaml_safe_load text;
                match doc with
                | VDict _ => inject_product_defaults doc
                | _ => Ok doc
                end
          with
          | Ok doc => Ok doc
          | Raise _ => Raise ValueError
          end
      end
  end.

(** [Path(p).is_dir()], [Path(p).is_file()], [Path(p).rglob('*')] and
    [f.suffix.lower()] *)
Variable is_dir : string -> bool.
Variable is_file : string -> bool.
Variable rglob : string -> list string.
Variable suffix_lower : string -> string.

Definition config_suffixes : list string :=
  [".hcl"; ".tf"; ".json"; ".yaml"; ".yml"; ".toml"].

(** The inner loop over the entries of a directory. *)
Fixpoint collect_dir (entries : list string) (result : list (string * value))
  : list (string * value) :=
  match entries with
  | [] => result
  | f :: entries' =>
      if bool_decide (suffix_lower f ∈ config_suffixes) then
        match parse_file f with
        | Ok parsed => collect_dir entries' (result ++ [(f, parsed)])
        | Raise _ => collect_dir entries' result
        end
      else collect_dir entries' result
  end.

Fixpoint collect_loop (paths : list string) (result : list (string * value))
  : res (list (string * value)) :=
  match paths with
  | [] => Ok result
  | p :: paths' =>
      if is_dir p then collect_loop paths' (collect_dir (rglob p) result)
      else if is_file p then
        parsed ← parse_file p;
        collect_loop paths' (result ++ [(p, parsed)])
      else collect_loop paths' result
  end.

Definition collect_configs (paths : list string)
  : res (list (string * value)) :=
  collect_loop paths [].

End Parser.


(** ** Example configurations *)

Module Cfg.

(** [{address: "0.0.0.0:8200"}] *)
Definition listener : gmap string value :=
  {[ "address" := VStr "0.0.0.0:8200" ]}.

(** [{storage: {}, listener: listeners}] *)
Definition vault (listeners : list value) : gmap string value :=
  {[ "storage" := VDict ∅; "listener" := VList listeners ]}.

(** [{jmespath: xs, operator: exists}], a rule without severity *)
Definition bare_rule : rule :=
  {[ "jmespath" := VStr "xs"; "operator" := VStr "exists" ]}.

(** A verdict with the given severity and outcome. *)
Definition verdict_of (sev : string) (ok : bool) : verdict :=
  make_verdict {[ "severity" := VStr sev ]} ok VNone.

End Cfg.


(** * Properties *)

(** ** The exception monad *)

Lemma returns_Ok {A} (a : A) : returns (Ok a).
Proof. by exists a. Qed.

Lemma not_returns_Raise {A} (e : exn) : ~ returns (@Raise A e).
Proof. by intros [a Ha]. Qed.

Lemma bind_Ok {A B} (m : res A) (k : A -> res B) (b : B) :
  m ≫= k = Ok b <-> exists a, m = Ok a /\ k a = Ok b.
Proof.
  destruct m as [a|e]; simpl; split.
  - intros H. by exists a.
  - by intros (a' & [= <-] & H).
  - intros H. discriminate H.
  - by intros (a' & H & _).
Qed.

(** [mapM] in [res] returns exactly when every call returns, with the
    results in order. *)
Lemma mapM_res_Ok {A B} (f : A -> res B) (l : list A) (k : list B) :
  mapM f l = Ok k <-> Forall2 (fun x y => f x = Ok y) l k.
Proof.
  revert k. induction l as [|x l IH]; intros k; simpl.
  - split.
    + intros [= <-]. constructor.
    + intros H. by inversion H.
  - split.
    + intros (y & Hy & (k' & Hk' & [= <-])%bind_Ok)%bind_Ok.
      constructor; [done | by apply IH].
    + intros H. inversion H as [|? y ? k' Hy Hk']; subst.
      apply IH in Hk'. cbn. rewrite Hy. cbn. by rewrite Hk'.
Qed.

(** ** The runner *)

Section Runner.

Variable L : library.

Lemma run_loop_mapM (rules : list rule) (doc : value) (results : list verdict) :
  run_loop L rules doc results =
  (vs ← mapM (fun r => evaluate_rule L r doc) rules; Ok (results ++ vs)).
Proof.
  revert results. induction rules as [|r rules IH]; intros results; simpl.
  - cbn. by rewrite app_nil_r.
  - destruct (evaluate_rule L r doc) as [v|e]; cbn; [|done].
    rewrite IH.
    destruct (mapM _ rules) as [vs|e]; cbn; [|done].
    by rewrite <- app_assoc.
Qed.

(** C9, as amended: the runner is the map of the evaluator over the rule
    list, an exception ending the run. When the evaluation of every rule
    returns, the runner returns one verdict per rule, in the order of
    the rules, the i-th verdict being what the evaluator returns for the
    i-th rule. When the evaluation of some rule raises, the runner
    raises the exception of the first such rule and returns no verdict,
    not even those of the rules before it. Nothing but the rule and the
    document enters a verdict. *)
Theorem run_rules_for_file_maps_evaluate_rule
    (rules : list rule) (doc : value) :
  run_rules_for_file L rules doc = mapM (fun r => evaluate_rule L r doc) rules
  /\ (forall vs, run_rules_for_file L rules doc = Ok vs ->
        List.length vs = List.length rules
        /\ forall (i : nat) (r : rule), rules !! i = Some r ->
             exists v, vs !! i = Some v /\ evaluate_rule L r doc = Ok v)
  /\ (Forall (fun r => returns (evaluate_rule L r doc)) rules ->
        returns (run_rules_for_file L rules doc))
  /\ (forall (before after : list rule) (r : rule) (e : exn),
        rules = before ++ r :: after ->
        Forall (fun r' => returns (evaluate_rule L r' doc)) before ->
        evaluate_rule L r doc = Raise e ->
        run_rules_for_file L rules doc = Raise e).
Proof.
  assert (Hmap : run_rules_for_file L rules doc =
                 mapM (fun r => evaluate_rule L r doc) rules).
  { unfold run_rules_for_file. rewrite run_loop_mapM.
    by destruct (mapM _ rules). }
  split; [exact Hmap|]. rewrite Hmap. split; [|split].
  - intros vs Hvs. apply mapM_res_Ok in Hvs. split.
    + symmetry. by eapply Forall2_length.
    + intros i r Hr.
      destruct (Forall2_lookup_l _ _ _ _ _ Hvs Hr) as (v & Hv & Hrv).
      by exists v.
  - clear Hmap. intros Hall.
    induction Hall as [|r rules' [v Hv] _ [vs IH]].
    + by exists [].
    + exists (v :: vs). cbn. rewrite Hv. cbn. by rewrite IH.
  - clear Hmap. intros before after r e -> Hbefore Hr.
    induction Hbefore as [|r0 before' [v Hv] _ IH]; cbn.
    + by rewrite Hr.
    + rewrite Hv. cbn. by rewrite IH.
Qed.

End Runner.

(** ** Generators consumed by [all] and [any] *)

Section Generators.

Context {A : Type} (f : A -> res bool).

Lemma py_all_returns (l : list A) :
  Forall (fun x => returns (f x)) l -> returns (py_all f l).
Proof.
  induction 1 as [|x l [b Hb] _ IH]; simpl.
  - apply returns_Ok.
  - rewrite Hb. cbn. destruct b; [exact IH | apply returns_Ok].
Qed.

Lemma py_all_true (l : list A) :
  py_all f l = Ok true <-> Forall (fun x => f x = Ok true) l.
Proof.
  induction l as [|x l IH]; simpl.
  - split; [constructor | done].
  - split.
    + intros ([] & Hx & Hl)%bind_Ok; [|done].
      constructor; [done | by apply IH].
    + intros H. inversion H as [|? ? Hx Hl]; subst.
      rewrite Hx. cbn. by apply IH.
Qed.

Lemma py_all_Ok (l : list A) (b : bool) :
  py_all f l = Ok b -> (b = true <-> Forall (fun x => f x = Ok true) l).
Proof.
  intros H. destruct b.
  - by rewrite <- py_all_true.
  - split; [done|]. intros Hall. apply py_all_true in Hall. congruence.
Qed.

Lemma py_any_returns (l : list A) :
  Forall (fun x => returns (f x)) l -> returns (py_any f l).
Proof.
  induction 1 as [|x l [b Hb] _ IH]; simpl.
  - apply returns_Ok.
  - rewrite Hb. cbn. destruct b; [apply returns_Ok | exact IH].
Qed.

Lemma py_any_Ok (l : list A) (b : bool) :
  py_any f l = Ok b -> (b = true <-> Exists (fun x => f x = Ok true) l).
Proof.
  revert b. induction l as [|x l IH]; simpl; intros b H.
  - injection H as <-. split; [done | by inversion 1].
  - apply bind_Ok in H as (bx & Hx & Hl). destruct bx.
    + injection Hl as <-. split; [by left | done].
    + rewrite (IH _ Hl). split; [by right|].
      inversion 1 as [? ? Hx'|]; [congruence | done].
Qed.

(** Without exceptions the two are [forallb] and [existsb]. *)
Lemma py_all_total (g : A -> bool) (l : list A) :
  (forall x, f x = Ok (g x)) -> py_all f l = Ok (forallb g l).
Proof.
  intros Hf. induction l as [|x l IH]; simpl; [done|].
  rewrite Hf. cbn. by destruct (g x).
Qed.

Lemma py_any_total (g : A -> bool) (l : list A) :
  (forall x, f x = Ok (g x)) -> py_any f l = Ok (existsb g l).
Proof.
  intros Hf. induction l as [|x l IH]; simpl; [done|].
  rewrite Hf. cbn. by destruct (g x).
Qed.

End Generators.

(** ** Flattening *)

Lemma fold_flatten_step (items flat : list value) :
  fold_left flatten_step items flat = flat ++ List.concat (map splice items).
Proof.
  revert flat. induction items as [|item items IH]; intros flat; simpl.
  - by rewrite app_nil_r.
  - rewrite IH. destruct item; simpl; by rewrite <- app_assoc.
Qed.

Lemma flatten_one_concat (items : list value) :
  flatten_one items = List.concat (map splice items).
Proof. unfold flatten_one. by rewrite fold_flatten_step. Qed.

Lemma elem_of_flatten_one (items : list value) (x : value) :
  x ∈ flatten_one items <->
  (x ∈ items /\ is_list x = false) \/ (exists sub, VList sub ∈ items /\ x ∈ sub).
Proof.
  rewrite flatten_one_concat. induction items as [|item items IH]; simpl.
  - split.
    + by intros ?%elem_of_nil.
    + intros [[?%elem_of_nil _]|(sub & ?%elem_of_nil & _)]; done.
  - rewrite elem_of_app, IH. split.
    + intros [Hx|[[Hx Hl]|(sub & Hs & Hx)]].
      * destruct item; simpl in Hx;
          try (apply list_elem_of_singleton in Hx as ->; left; split;
               [by left | done]).
        right. eexists. split; [by left | done].
      * left. split; [by right | done].
      * right. exists sub. split; [by right | done].
    + intros [[Hx Hl]|(sub & Hs & Hx)].
      * apply elem_of_cons in Hx as [->|Hx].
        -- left. destruct item; simpl in *; try by left. done.
        -- right. left. done.
      * apply elem_of_cons in Hs as [<-|Hs].
        -- by left.
        -- right. right. by exists sub.
Qed.

(** ** The evaluator on list and on single observations *)

Section Evaluator.

Variable L : library.

Lemma evaluate_rule_list (r : rule) (doc : value) (items : list value) :
  observation L r doc = VList items ->
  evaluate_rule L r doc =
  (passed ← aggregate L (rule_operator r) (rule_expected r) (flatten_one items);
   Ok (make_verdict r passed (VList (flatten_one items)))).
Proof.
  unfold observation, rule_expr, evaluate_rule. intros ->.
  by destruct (aggregate _ _ _ _).
Qed.

Lemma evaluate_rule_single (r : rule) (doc : value) :
  is_list (observation L r doc) = false ->
  evaluate_rule L r doc =
  (passed ← _eval_single L (rule_operator r) (observation L r doc)
              (rule_expected r) (Some r);
   Ok (make_verdict r passed (observation L r doc))).
Proof.
  unfold observation, rule_expr, evaluate_rule, rule_operator, rule_expected.
  destruct (extract _ _ _); try done; intros _;
    by destruct (_eval_single _ _ _ _ _).
Qed.

Lemma aggregate_all (operator expected : value) (flat : list value) :
  op_is operator "regex" = false ->
  aggregate L operator expected flat =
  py_all (fun item => _eval_single L operator item expected None) flat.
Proof.
  unfold aggregate. intros ->.
  by destruct (op_is operator "exists"), (op_is operator "absent").
Qed.

Lemma aggregate_any (operator expected : value) (flat : list value) :
  op_is operator "regex" = true ->
  aggregate L operator expected flat =
  negb <$> py_any (fun item => _eval_single L operator item expected None) flat.
Proof. unfold aggregate. by intros ->. Qed.

(** C6: a list observation is flattened by exactly one level before the
    aggregate runs: the flattened list is the concatenation of the items,
    a list item standing for its elements and any other item for itself;
    the aggregate and the verdict see the flattened list only; and an
    element of a list item is kept as it is, even when it is a list. *)
Theorem flatten_one_level_before_aggregate
    (r : rule) (doc : value) (items : list value) :
  observation L r doc = VList items ->
  flatten_one items = List.concat (map splice items)
  /\ evaluate_rule L r doc =
     (passed ← aggregate L (rule_operator r) (rule_expected r)
                 (flatten_one items);
      Ok (make_verdict r passed (VList (flatten_one items))))
  /\ (forall v, evaluate_rule L r doc = Ok v ->
        observed v = VList (flatten_one items))
  /\ (forall sub inner : list value,
        VList sub ∈ items -> VList inner ∈ sub ->
        VList inner ∈ flatten_one items).
Proof.
  intros Hobs. split; [apply flatten_one_concat|].
  split; [by apply evaluate_rule_list|]. split.
  - intros v. rewrite (evaluate_rule_list _ _ _ Hobs).
    intros (p & _ & [= <-])%bind_Ok. done.
  - intros sub inner Hsub Hinner. apply elem_of_flatten_one.
    right. by exists sub.
Qed.

(** The aggregate of an operator other than [regex]: on a list
    observation the verdict passes exactly when the predicate, called
    without the rule as the list branch calls it, holds for every
    element of the flattened list; the evaluator returns whenever that
    call does on every element. An empty flattened list passes,
    [[1,1,1]] passes [equals 1] and [[1,2,1]] fails it. *)
Theorem list_observation_passes_iff_all
    (r : rule) (doc : value) (items : list value) :
  let operator := rule_operator r in
  let expected := rule_expected r in
  let holds := fun item => _eval_single L operator item expected None in
  let flat := flatten_one items in
  op_is operator "regex" = false ->
  observation L r doc = VList items ->
  (Forall (fun item => returns (holds item)) flat ->
     returns (evaluate_rule L r doc))
  /\ (forall v, evaluate_rule L r doc = Ok v ->
        (passed v = true <-> Forall (fun item => holds item = Ok true) flat))
  /\ (flat = [] ->
        exists v, evaluate_rule L r doc = Ok v /\ passed v = true)
  /\ (operator = VStr "equals" -> expected = VInt 1 ->
      items = [VInt 1; VInt 1; VInt 1] ->
        exists v, evaluate_rule L r doc = Ok v /\ passed v = true)
  /\ (operator = VStr "equals" -> expected = VInt 1 ->
      items = [VInt 1; VInt 2; VInt 1] ->
        exists v, evaluate_rule L r doc = Ok v /\ passed v = false).
Proof.
  intros operator expected holds flat Hop Hobs.
  rewrite (evaluate_rule_list _ _ _ Hobs).
  fold operator expected flat. rewrite (aggregate_all _ _ _ Hop). fold holds.
  split; [|split; [|split; [|split]]].
  - intros [p Hp]%py_all_returns. rewrite Hp. apply returns_Ok.
  - intros v (p & Hp & [= <-])%bind_Ok. simpl.
    by apply (py_all_Ok _ _ _ Hp).
  - intros ->. eexists. split; [reflexivity | done].
  - intros Hoperator Hexpected ->. subst holds flat.
    rewrite Hoperator, Hexpected. eexists. split; [reflexivity | done].
  - intros Hoperator Hexpected ->. subst holds flat.
    rewrite Hoperator, Hexpected. eexists. split; [reflexivity | done].
Qed.

Lemma eval_single_regex (operator item expected : value) (r : option rule) :
  op_is operator "regex" = true ->
  _eval_single L operator item expected r = regex_matches L expected item.
Proof.
  intros Hop. unfold _eval_single, regex_matches.
  destruct operator; try done. unfold op_is in *. simpl in *.
  apply String.eqb_eq in Hop as ->. simpl.
  destruct item; simpl; try done; by destruct expected.
Qed.

(** C5: for the operator [regex] and a list observation, the predicate
    on an element is [re.search] of the pattern in the element, null
    never matching; the verdict carries the list flattened by one level,
    the concatenation of the items, and fails exactly when some element
    of that list matches the pattern, so it passes exactly when none
    does; the evaluator returns whenever the search does on every
    element. With the pattern [BEGIN], not found in [safe] and found in
    [BEGIN SECRET], the list of the two fails, nested or not, and the
    list of [safe] alone passes. *)
Theorem list_observation_regex_fails_iff_any
    (r : rule) (doc : value) (items : list value) :
  let operator := rule_operator r in
  let expected := rule_expected r in
  let flat := List.concat (map splice items) in
  op_is operator "regex" = true ->
  observation L r doc = VList items ->
  (forall (item : value) (r' : option rule),
     _eval_single L operator item expected r' = regex_matches L expected item)
  /\ (Forall (fun item => returns (regex_matches L expected item)) flat ->
        returns (evaluate_rule L r doc))
  /\ (forall v, evaluate_rule L r doc = Ok v ->
        observed v = VList flat
        /\ (passed v = false <->
              Exists (fun item => regex_matches L expected item = Ok true) flat)
        /\ (passed v = true <->
              Forall (fun item => regex_matches L expected item = Ok false)
                flat))
  /\ (expected = VStr "BEGIN" ->
      re_search L "BEGIN" "safe" = Ok false ->
      re_search L "BEGIN" "BEGIN SECRET" = Ok true ->
        (items = [VStr "safe"; VStr "BEGIN SECRET"] ->
           exists v, evaluate_rule L r doc = Ok v /\ passed v = false)
        /\ (items = [VStr "safe"; VList [VStr "BEGIN SECRET"]] ->
             exists v, evaluate_rule L r doc = Ok v /\ passed v = false)
        /\ (items = [VList [VStr "safe"]; VNone] ->
             exists v, evaluate_rule L r doc = Ok v /\ passed v = true)).
Proof.
  intros operator expected flat Hop Hobs.
  rewrite (evaluate_rule_list _ _ _ Hobs).
  fold operator expected. rewrite flatten_one_concat. fold flat.
  rewrite (aggregate_any _ _ _ Hop).
  assert (Hholds : forall item r',
            _eval_single L operator item expected r'
            = regex_matches L expected item).
  { intros item r'. by apply eval_single_regex. }
  assert (Hany : forall l,
            py_any (fun item => _eval_single L operator item expected None) l
            = py_any (regex_matches L expected) l).
  { induction l as [|x l IH]; simpl; [done|]. by rewrite Hholds, IH. }
  rewrite Hany.
  split; [exact Hholds|]. split; [|split].
  - intros [p Hp]%py_any_returns. rewrite Hp. apply returns_Ok.
  - intros v (p & Hp & [= <-])%bind_Ok.
    destruct (py_any (regex_matches L expected) flat) as [q|] eqn:Hq; [|done].
    injection Hp as <-. simpl. split; [done|].
    pose proof (py_any_Ok _ _ _ Hq) as Hex. split.
    + rewrite <- Hex. by destruct q.
    + split.
      * intros Hq'. assert (q = false) as -> by by destruct q.
        clear Hex Hany. revert Hq. clear. induction flat as [|x l IH]; simpl.
        -- constructor.
        -- intros ([] & Hx & Hl)%bind_Ok; [done|].
           constructor; [done | by apply IH].
      * intros Hall. destruct q; [|done].
        assert (Hsome : Exists (fun item => regex_matches L expected item
                                            = Ok true) flat)
          by by apply Hex.
        apply Exists_exists in Hsome as (x & Hx & Hm).
        rewrite Forall_forall in Hall. specialize (Hall x Hx). congruence.
  - intros Hexp Hsafe Hsecret. subst flat. rewrite Hexp.
    split; [|split]; intros ->; simpl; rewrite ?Hsafe, ?Hsecret; simpl;
      eexists; (split; [reflexivity | done]).
Qed.

End Evaluator.

(** ** The single-value predicate *)

Section Predicate.

Variable L : library.

Lemma op_is_true (operator : value) (name : string) :
  op_is operator name = true <-> operator = VStr name.
Proof.
  unfold op_is. destruct operator; simpl; try by split.
  rewrite String.eqb_eq. split; congruence.
Qed.

Lemma known_operator_false (operator : value) :
  known_operator operator = false <->
  Forall (fun name => op_is operator name = false) OPERATORS.
Proof.
  unfold known_operator. induction OPERATORS as [|name names IH]; simpl.
  - split; [constructor | done].
  - rewrite orb_false_iff, IH. split.
    + intros [? ?]. by constructor.
    + by inversion 1.
Qed.

Lemma eval_single_unknown (operator observed expected : value)
    (r : option rule) :
  known_operator operator = false ->
  _eval_single L operator observed expected r = Ok false.
Proof.
  intros H%known_operator_false. unfold OPERATORS in H.
  repeat (apply Forall_cons in H as [? H]).
  unfold _eval_single. by repeat case_match.
Qed.

Lemma eval_single_exists (observed expected : value) (r : option rule) :
  _eval_single L (VStr "exists") observed expected r
  = Ok (negb (is_none observed)).
Proof. reflexivity. Qed.

Lemma eval_single_absent (observed expected : value) (r : option rule) :
  _eval_single L (VStr "absent") observed expected r = Ok (is_none observed).
Proof. reflexivity. Qed.

(** The rule enters the predicate through [tls_rule] only. *)
Lemma eval_single_rule (operator observed expected : value)
    (r1 r2 : option rule) :
  tls_rule r1 = tls_rule r2 ->
  _eval_single L operator observed expected r1
  = _eval_single L operator observed expected r2.
Proof. unfold _eval_single. by intros ->. Qed.

Lemma eval_single_returns (operator observed expected : value)
    (r : option rule) :
  (op_is operator "in" = true -> is_list expected = true) ->
  (op_is operator "regex" = true -> pattern_compiles L expected) ->
  tls_rule r = Ok false ->
  returns (_eval_single L operator observed expected r).
Proof.
  intros Hin Hregex Htls. unfold _eval_single. rewrite Htls. cbn.
  destruct (op_is operator "exists"); [apply returns_Ok|].
  destruct (op_is operator "absent"); [apply returns_Ok|].
  destruct (op_is operator "equals"); [apply returns_Ok|].
  destruct (op_is operator "not_equals"); [apply returns_Ok|].
  destruct (op_is operator "in").
  { destruct (is_none observed); [apply returns_Ok|].
    specialize (Hin eq_refl). destruct expected; try done.
    apply returns_Ok. }
  destruct (op_is operator "regex").
  { destruct (is_none observed); [apply returns_Ok|]. by apply Hregex. }
  destruct (op_is operator "gt"); [apply returns_Ok|].
  destruct (op_is operator "lt"); apply returns_Ok.
Qed.

(** The predicate raises only from the membership test of [in], from
    [re.search], or, in the four comparisons, from the test of the path
    or from the TLS comparison. *)
Lemma eval_single_returns_at (operator observed expected : value)
    (r : option rule) :
  (op_is operator "in" = true -> observed <> VNone ->
     returns (py_in observed expected)) ->
  (op_is operator "regex" = true -> observed <> VNone ->
     returns (py_re_search L expected (py_str L observed))) ->
  (is_comparison operator = true ->
     tls_rule r = Ok false
     \/ (tls_rule r = Ok true
         /\ returns (tls_compare L (comparison_of operator) observed expected))) ->
  returns (_eval_single L operator observed expected r).
Proof.
  intros Hin Hregex Hcmp.
  unfold _eval_single, is_comparison, comparison_of, tls_compare in *.
  destruct (op_is operator "exists"); [apply returns_Ok|].
  destruct (op_is operator "absent"); [apply returns_Ok|].
  destruct (op_is operator "equals").
  { destruct (Hcmp eq_refl) as [->|[-> H]]; cbn;
      [apply returns_Ok | exact H]. }
  destruct (op_is operator "not_equals").
  { destruct (Hcmp eq_refl) as [->|[-> H]]; cbn;
      [apply returns_Ok | exact H]. }
  destruct (op_is operator "in").
  { destruct observed; simpl; try apply returns_Ok; by apply Hin. }
  destruct (op_is operator "regex").
  { destruct observed; simpl; try apply returns_Ok; by apply Hregex. }
  destruct (op_is operator "gt").
  { destruct (Hcmp eq_refl) as [->|[-> H]]; cbn;
      [apply returns_Ok | exact H]. }
  destruct (op_is operator "lt"); [|apply returns_Ok].
  destruct (Hcmp eq_refl) as [->|[-> H]]; cbn;
    [apply returns_Ok | exact H].
Qed.

Lemma tls_rule_plain_path (r : rule) :
  plain_path r = true -> tls_rule (Some r) = Ok false.
Proof.
  unfold plain_path, tls_rule, dict_get. intros H.
  destruct (truthy (VDict r)); [|done].
  destruct (r !! "jmespath") as [[]|]; simpl in *; try done.
  by destruct (endswith _ _).
Qed.

(** Without the rule, as on the items of a list, the TLS comparison is
    out of play. *)
Lemma eval_single_item_returns (operator item expected : value) :
  (op_is operator "in" = true -> is_list expected = true) ->
  (op_is operator "regex" = true -> pattern_compiles L expected) ->
  returns (_eval_single L operator item expected None).
Proof. intros Hin Hregex. by apply eval_single_returns. Qed.

End Predicate.

(** ** Verdicts *)

Section Verdicts.

Variable L : library.

(** C7, as amended: with [exists], an observation that is not a list
    passes exactly when it is not null, and a list passes exactly when
    no element of its flattening is null; with [absent], an observation
    that is not a list passes exactly when it is null, and a list passes
    exactly when every element of its flattening is null. *)
Theorem exists_absent_verdict (r : rule) (doc : value) :
  let obs := observation L r doc in
  rule_operator r = VStr "exists" \/ rule_operator r = VStr "absent" ->
  exists v, evaluate_rule L r doc = Ok v
    /\ (rule_operator r = VStr "exists" ->
          (is_list obs = false -> passed v = negb (is_none obs))
          /\ (forall items, obs = VList items ->
                passed v = forallb (fun item => negb (is_none item))
                             (flatten_one items)))
    /\ (rule_operator r = VStr "absent" ->
          (is_list obs = false -> passed v = is_none obs)
          /\ (forall items, obs = VList items ->
                passed v = forallb is_none (flatten_one items))).
Proof.
  intros obs Hop. destruct (is_list obs) eqn:Hlist.
  - destruct obs as [| | | | |items|] eqn:Hobs; try done.
    rewrite (evaluate_rule_list _ _ _ _ Hobs).
    destruct Hop as [Hop|Hop]; rewrite Hop; unfold aggregate; simpl.
    + rewrite (py_all_total _ (fun item => negb (is_none item)));
        [|by intros; apply eval_single_exists].
      eexists. split; [reflexivity|]. simpl. split; [|done].
      intros _. split; [done|]. by intros ? [= <-].
    + rewrite (py_all_total _ is_none); [|by intros; apply eval_single_absent].
      eexists. split; [reflexivity|]. simpl. split; [done|].
      intros _. split; [done|]. by intros ? [= <-].
  - rewrite (evaluate_rule_single _ _ _ Hlist). fold obs.
    destruct Hop as [Hop|Hop]; rewrite Hop.
    + rewrite eval_single_exists. eexists. split; [reflexivity|]. simpl.
      split; [|done]. intros _. split; [done|].
      intros items Hitems. by rewrite Hitems in Hlist.
    + rewrite eval_single_absent. eexists. split; [reflexivity|]. simpl.
      split; [done|]. intros _. split; [done|].
      intros items Hitems. by rewrite Hitems in Hlist.
Qed.

(** C3, as amended: with an operator outside [OPERATORS] the evaluator
    returns a verdict; it fails for an observation that is not a list
    and for a list whose flattening has an element, and it passes for a
    list whose flattening is empty. *)
Theorem unknown_operator_verdict (r : rule) (doc : value) :
  let obs := observation L r doc in
  known_operator (rule_operator r) = false ->
  exists v, evaluate_rule L r doc = Ok v
    /\ (is_list obs = false -> passed v = false)
    /\ (forall items, obs = VList items ->
          (passed v = true <-> flatten_one items = [])).
Proof.
  intros obs Hop. destruct (is_list obs) eqn:Hlist.
  - destruct obs as [| | | | |items|] eqn:Hobs; try done.
    rewrite (evaluate_rule_list _ _ _ _ Hobs).
    assert (Hregex : op_is (rule_operator r) "regex" = false).
    { apply known_operator_false in Hop.
      eapply Forall_forall in Hop; [exact Hop|]. set_solver. }
    rewrite (aggregate_all _ _ _ _ Hregex).
    rewrite (py_all_total _ (fun _ => false));
      [|by intros; apply eval_single_unknown].
    eexists. split; [reflexivity|]. simpl. split; [done|].
    intros ? [= <-]. by destruct (flatten_one items).
  - rewrite (evaluate_rule_single _ _ _ Hlist). fold obs.
    rewrite (eval_single_unknown _ _ _ _ _ Hop).
    eexists. split; [reflexivity|]. simpl. split; [done|].
    intros items Hitems. by rewrite Hitems in Hlist.
Qed.

(** C1, as amended: the evaluator raises only from three calls that no
    handler guards: the membership test of [in], [re.search] of [regex],
    and, for [equals], [not_equals], [gt] and [lt] on an observation
    that is not a list, the test of the path for [tls_min_version] and
    the TLS comparison behind it. For every rule and document on which
    these return where they are reached, that is on the observation or
    on the non-null items of its flattening, the evaluator returns a
    verdict. The verdict carries the observation as extracted
    (flattened, for a list), which is null when the search raises. On an
    observation that is not a list, an operator outside [OPERATORS]
    fails, and so do [gt] and [lt] outside the TLS comparison when
    [float] raises on either operand. *)
Theorem evaluate_rule_returns (r : rule) (doc : value) :
  let operator := rule_operator r in
  let expected := rule_expected r in
  let obs := observation L r doc in
  (op_is operator "in" = true ->
     forall x, x ∈ observed_values obs -> x <> VNone ->
       returns (py_in x expected)) ->
  (op_is operator "regex" = true ->
     forall x, x ∈ observed_values obs -> x <> VNone ->
       returns (py_re_search L expected (py_str L x))) ->
  (is_comparison operator = true -> is_list obs = false ->
     tls_rule (Some r) = Ok false
     \/ (tls_rule (Some r) = Ok true
         /\ returns (tls_compare L (comparison_of operator) obs expected))) ->
  exists v, evaluate_rule L r doc = Ok v
    /\ observed v = match obs with
                    | VList items => VList (flatten_one items)
                    | _ => obs
                    end
    /\ (~ returns (jmespath_search L (rule_expr r) doc) -> observed v = VNone)
    /\ (known_operator operator = false -> is_list obs = false ->
          passed v = false)
    /\ (op_is operator "gt" = true \/ op_is operator "lt" = true ->
        is_list obs = false ->
        tls_rule (Some r) = Ok false ->
        ~ returns (py_float L obs) \/ ~ returns (py_float L expected) ->
          passed v = false).
Proof.
  intros operator expected obs Hin Hregex Hcmp.
  assert (Hraise : ~ returns (jmespath_search L (rule_expr r) doc) ->
                   obs = VNone).
  { unfold obs, observation, extract. intros Hsearch.
    destruct (truthy _); [|done].
    destruct (jmespath_search _ _ _) as [x|e]; [|done].
    destruct Hsearch. apply returns_Ok. }
  destruct (is_list obs) eqn:Hlist.
  - destruct obs as [| | | | |items|] eqn:Hobs; try done.
    rewrite (evaluate_rule_list _ _ _ _ Hobs). fold operator expected.
    assert (Hitems : Forall
              (fun item => returns (_eval_single L operator item expected None))
              (flatten_one items)).
    { apply Forall_forall. intros item Hitem.
      apply eval_single_returns_at.
      - intros Hop. by apply Hin.
      - intros Hop. by apply Hregex.
      - intros _. by left. }
    assert (Hagg : returns (aggregate L operator expected (flatten_one items))).
    { destruct (op_is operator "regex") eqn:Hop.
      - rewrite (aggregate_any _ _ _ _ Hop).
        destruct (py_any_returns _ _ Hitems) as [p Hp]. rewrite Hp.
        apply returns_Ok.
      - rewrite (aggregate_all _ _ _ _ Hop). by apply py_all_returns. }
    destruct Hagg as [p Hp]. rewrite Hp.
    eexists. split; [reflexivity|]. simpl.
    split; [done|]. split; [by intros ?%Hraise|]. done.
  - rewrite (evaluate_rule_single _ _ _ Hlist). fold obs operator expected.
    assert (Hself : obs ∈ observed_values obs).
    { destruct obs; try done; apply list_elem_of_singleton; reflexivity. }
    destruct (eval_single_returns_at L operator obs expected (Some r))
      as [p Hp].
    { intros Hop. by apply Hin. }
    { intros Hop. by apply Hregex. }
    { intros Hop. by apply Hcmp. }
    rewrite Hp. eexists. split; [reflexivity|]. simpl.
    split; [by destruct obs|]. split; [exact Hraise|]. split.
    + intros Hunknown _.
      rewrite (eval_single_unknown _ _ _ _ _ Hunknown) in Hp. congruence.
    + intros Hop _ Htls Hfloat.
      change (tls_rule (Some r) = Ok false) in Htls.
      assert (Hx : forall (k : float -> float -> bool),
                 try_except (x ← py_float L obs; y ← py_float L expected;
                             Ok (k x y)) false = false).
      { intros k. destruct (py_float L obs) as [x|]; [|done].
        destruct (py_float L expected) as [y|]; [|done].
        destruct Hfloat as [[]|[]]; apply returns_Ok. }
      revert Hp. unfold _eval_single.
      destruct Hop as [Hop|Hop]; apply op_is_true in Hop;
        rewrite Hop, Htls; cbn; rewrite Hx; congruence.
Qed.

End Verdicts.

(** ** Rules without a path expression *)

Section NoPath.

Variable L : library.

Lemma eval_single_null (operator expected : value) (r : option rule) :
  tls_rule r = Ok false ->
  _eval_single L operator VNone expected r
  = Ok (null_predicate operator expected).
Proof.
  intros Htls. unfold _eval_single, null_predicate. rewrite Htls. cbn.
  by repeat case_match.
Qed.

Lemma evaluate_rule_no_path (r : rule) (doc : value) :
  truthy (rule_expr r) = false ->
  plain_path r = true ->
  evaluate_rule L r doc
  = Ok (make_verdict r (null_predicate (rule_operator r) (rule_expected r))
          VNone).
Proof.
  intros Hexpr Hpath.
  assert (Hobs : observation L r doc = VNone).
  { unfold observation, extract. by rewrite Hexpr. }
  rewrite evaluate_rule_single; rewrite Hobs; [|done].
  by rewrite eval_single_null; [|apply tls_rule_plain_path].
Qed.

Lemma dict_get_insert_ne (r : rule) (k k' : string) (x dflt : value) :
  k <> k' -> dict_get (<[k:=x]> r) k' dflt = dict_get r k' dflt.
Proof. intros Hk. unfold dict_get. by rewrite lookup_insert_ne. Qed.

Lemma dict_get_delete_ne (r : rule) (k k' : string) (dflt : value) :
  k <> k' -> dict_get (delete k r) k' dflt = dict_get r k' dflt.
Proof. intros Hk. unfold dict_get. by rewrite lookup_delete_ne. Qed.

End NoPath.

Section EmptyPath.

Variable L : library.

(** C10: a rule whose path expression is the empty string evaluates
    exactly like the rule without the path expression: the observation
    is null, whatever the library would find, and the two verdicts are
    the same; with [exists] it fails and with [absent] it passes. *)
Theorem empty_path_is_no_path (r : rule) (doc : value) :
  let r0 := <["jmespath" := VStr EmptyString]> r in
  let r1 := delete "jmespath" r in
  observation L r0 doc = VNone
  /\ evaluate_rule L r0 doc = evaluate_rule L r1 doc
  /\ (exists v, evaluate_rule L r0 doc = Ok v /\ observed v = VNone)
  /\ (forall L' : library, evaluate_rule L' r0 doc = evaluate_rule L r0 doc)
  /\ (rule_operator r = VStr "exists" ->
        exists v, evaluate_rule L r0 doc = Ok v /\ passed v = false)
  /\ (rule_operator r = VStr "absent" ->
        exists v, evaluate_rule L r0 doc = Ok v /\ passed v = true).
Proof.
  intros r0 r1.
  assert (Hexpr0 : rule_expr r0 = VStr EmptyString).
  { unfold rule_expr, dict_get, r0. by rewrite lookup_insert_eq. }
  assert (Hexpr1 : rule_expr r1 = VNone).
  { unfold rule_expr, dict_get, r1. by rewrite lookup_delete_eq. }
  assert (Hpath0 : plain_path r0 = true).
  { unfold plain_path, r0. by rewrite lookup_insert_eq. }
  assert (Hpath1 : plain_path r1 = true).
  { unfold plain_path, r1. by rewrite lookup_delete_eq. }
  assert (Hop0 : rule_operator r0 = rule_operator r)
    by by apply dict_get_insert_ne.
  assert (Hexp0 : rule_expected r0 = rule_expected r)
    by by apply dict_get_insert_ne.
  assert (Heval : forall L' : library, evaluate_rule L' r0 doc =
            Ok (make_verdict r0
                  (null_predicate (rule_operator r) (rule_expected r)) VNone)).
  { intros L'. rewrite <- Hop0, <- Hexp0.
    apply evaluate_rule_no_path; [by rewrite Hexpr0 | done]. }
  split; [|split; [|split; [|split; [|split]]]].
  - unfold observation, extract. by rewrite Hexpr0.
  - rewrite Heval. rewrite evaluate_rule_no_path; [|by rewrite Hexpr1 | done].
    unfold rule_operator, rule_expected, make_verdict, r0, r1.
    by rewrite !dict_get_insert_ne, !dict_get_delete_ne.
  - rewrite Heval. by eexists.
  - intros L'. by rewrite !Heval.
  - intros Hop. rewrite Heval, Hop. by eexists.
  - intros Hop. rewrite Heval, Hop. by eexists.
Qed.

End EmptyPath.

(** ** Evaluation in a store *)

Section StoreProperties.

Variable L : library.

Lemma alter_lookup_insert (f : value -> value) (l : positive) (v : value)
    (st : gmap positive value) :
  st !! l = Some v -> alter f l st = <[l := f v]> st.
Proof.
  intros Hl. apply map_eq. intros l'.
  rewrite lookup_alter, lookup_insert.
  destruct (decide (l = l')) as [<-|]; [by rewrite Hl | done].
Qed.

(** The loop leaves at [flat] what the fold computes and touches no
    other reference. *)
Lemma flatten_loop_insert (items acc : list value) (flat : positive)
    (st : gmap positive value) :
  st !! flat = Some (VList acc) ->
  Store.flatten_loop items flat st
  = <[flat := VList (fold_left flatten_step items acc)]> st.
Proof.
  revert acc st. induction items as [|item items IH]; intros acc st Hflat.
  - simpl. by rewrite insert_id.
  - simpl.
    assert (Hstep :
      match item with
      | VList sub => Store.extend flat sub st
      | _ => Store.append flat item st
      end = <[flat := VList (flatten_step acc item)]> st).
    { unfold Store.extend, Store.append.
      destruct item; by rewrite (alter_lookup_insert _ _ _ _ Hflat). }
    rewrite Hstep, (IH (flatten_step acc item)).
    + by rewrite insert_insert_eq.
    + by rewrite lookup_insert_eq.
Qed.

Lemma store_evaluate_rule (rule_ref doc_ref : positive)
    (st : gmap positive value) (r : rule) (doc : value) :
  st !! rule_ref = Some (VDict r) ->
  st !! doc_ref = Some doc ->
  exists st',
    Store.evaluate_rule L rule_ref doc_ref st = (evaluate_rule L r doc, st')
    /\ forall l, is_Some (st !! l) -> st' !! l = st !! l.
Proof.
  intros Hr Hdoc. unfold Store.evaluate_rule. rewrite Hr, Hdoc.
  destruct (extract L (dict_get r "jmespath" VNone) doc)
    as [| | | | |items|] eqn:Hobs;
    try (exists st; split; [|done];
         unfold evaluate_rule; rewrite Hobs; f_equal;
         by destruct (_eval_single _ _ _ _ _)).
  unfold Store.new_list.
  set (flat := fresh (dom st)).
  assert (Hfresh : st !! flat = None).
  { apply not_elem_of_dom. apply is_fresh. }
  rewrite (flatten_loop_insert items []); [|by rewrite lookup_insert_eq].
  rewrite insert_insert_eq, lookup_insert_eq.
  eexists. split.
  - unfold evaluate_rule. rewrite Hobs. f_equal.
    by destruct (aggregate _ _ _ _).
  - intros l [v Hl]. rewrite lookup_insert_ne; [done|].
    intros <-. congruence.
Qed.

(** C8: evaluating a rule against a document any number of times in a
    row, each time in the store the previous evaluation left, gives the
    same result every time, the one fixed by the rule and the document
    alone; every object that was in the store before, the rule and the
    document among them, is unchanged afterwards. *)
Theorem evaluate_rule_is_pure (n : nat) (rule_ref doc_ref : positive)
    (st : gmap positive value) (r : rule) (doc : value) :
  st !! rule_ref = Some (VDict r) ->
  st !! doc_ref = Some doc ->
  exists st',
    Store.evaluate_times L n rule_ref doc_ref st
    = (replicate n (evaluate_rule L r doc), st')
    /\ (forall l, is_Some (st !! l) -> st' !! l = st !! l)
    /\ st' !! rule_ref = Some (VDict r)
    /\ st' !! doc_ref = Some doc.
Proof.
  revert st. induction n as [|n IH]; intros st Hr Hdoc.
  - exists st. by repeat split.
  - destruct (store_evaluate_rule _ _ _ _ _ Hr Hdoc) as (st1 & Heval & Hst1).
    assert (Hr1 : st1 !! rule_ref = Some (VDict r)) by by rewrite Hst1.
    assert (Hdoc1 : st1 !! doc_ref = Some doc) by by rewrite Hst1.
    destruct (IH st1 Hr1 Hdoc1) as (st2 & Htimes & Hst2 & Hr2 & Hdoc2).
    exists st2. simpl. rewrite Heval, Htimes.
    split; [done|]. split; [|done].
    intros l Hl. rewrite Hst2; [by apply Hst1|]. by rewrite Hst1.
Qed.

End StoreProperties.

(** ** The TLS version comparison *)

Section Tls.

Variable L : library.

Lemma tls_version_to_num_null : tls_version_to_num L VNone = Ok (VInt 0).
Proof. reflexivity. Qed.

Lemma tls_version_to_num_other (v : value) :
  v <> VNone ->
  (forall s, v = VStr s -> startswith s "tls" = false) ->
  tls_version_to_num L v = Ok v.
Proof.
  intros Hnull Hstr. destruct v; try done. simpl.
  by rewrite (Hstr s eq_refl).
Qed.

Lemma digit_is_not_t (c : ascii) (s : string) :
  Ref.is_digit c = true -> String.prefix "tls" (String c s) = false.
Proof. by destruct c as [[] [] [] [] [] [] [] []]. Qed.

Lemma replace_tls_digits (ds : string) :
  Ref.all_chars Ref.is_digit ds = true ->
  str_replace ds "tls" EmptyString = ds.
Proof.
  unfold str_replace. induction ds as [|c ds IH]; [done|].
  simpl Ref.all_chars. intros [Hc Hds]%andb_true_iff.
  cbn [replace_from]. rewrite (digit_is_not_t _ _ Hc). by rewrite IH.
Qed.

Lemma startswith_tls (s : string) : startswith ("tls" +:+ s) "tls" = true.
Proof. unfold startswith. simpl. by destruct s. Qed.

Lemma str_replace_tls (s : string) :
  str_replace ("tls" +:+ s) "tls" EmptyString
  = str_replace s "tls" EmptyString.
Proof.
  unfold str_replace. simpl.
  replace (String.prefix EmptyString s) with true by by destruct s.
  by destruct s.
Qed.

(** [tls] followed by decimal digits is the number the digits spell,
    [int] being what it is on decimal digits. *)
Lemma tls_version_to_num_digits (ds : string) (n : Z) :
  Ref.decimal ds = Some n ->
  int_of_str L ds = Ok n ->
  tls_version_to_num L (VStr ("tls" +:+ ds)) = Ok (VInt n).
Proof.
  intros Hds Hint. unfold Ref.decimal in Hds.
  destruct ds as [|c ds]; [done|].
  destruct (Ref.all_chars Ref.is_digit (String c ds)) eqn:Hdigits; [|done].
  unfold tls_version_to_num.
  rewrite startswith_tls, str_replace_tls, (replace_tls_digits _ Hdigits).
  by rewrite Hint.
Qed.

(** With the rule at hand and a path ending in [tls_min_version], the
    four comparisons go through [tls_version_to_num]. *)
Lemma eval_single_tls (observed expected : value) (r : option rule) :
  tls_rule r = Ok true ->
  _eval_single L (VStr "equals") observed expected r
  = tls_compare L (fun a b => Ok (py_eq a b)) observed expected
  /\ _eval_single L (VStr "not_equals") observed expected r
     = tls_compare L (fun a b => Ok (negb (py_eq a b))) observed expected
  /\ _eval_single L (VStr "gt") observed expected r
     = tls_compare L (py_ord OpGt) observed expected
  /\ _eval_single L (VStr "lt") observed expected r
     = tls_compare L (py_ord OpLt) observed expected.
Proof. intros Htls. unfold _eval_single. cbn. by rewrite Htls. Qed.

(** Without the rule, as on the items of a list, they do not. *)
Lemma eval_single_item_raw (item expected : value) :
  _eval_single L (VStr "equals") item expected None
  = Ok (py_eq item expected)
  /\ _eval_single L (VStr "not_equals") item expected None
     = Ok (negb (py_eq item expected)).
Proof. done. Qed.

End Tls.

(** On a list observation [equals] compares every item with the expected
    value as it stands, whatever the path expression. *)
Lemma evaluate_rule_list_equals (L : library) (r : rule) (doc : value)
    (items : list value) :
  observation L r doc = VList items ->
  rule_operator r = VStr "equals" ->
  evaluate_rule L r doc
  = Ok (make_verdict r
          (forallb (fun item => py_eq item (rule_expected r))
             (flatten_one items))
          (VList (flatten_one items))).
Proof.
  intros Hobs Hop. rewrite (evaluate_rule_list _ _ _ _ Hobs), Hop.
  rewrite aggregate_all; [|done].
  by rewrite (py_all_total _ (fun item => py_eq item (rule_expected r))).
Qed.

(** C2: the comparison through [tls_version_to_num] is made for a
    single observation and not for the items of a list observation. On
    [{listener: [{tls_min_version: tls12}]}] the path
    [listener[0].tls_min_version] observes [tls12] and the path
    [listener[*].tls_min_version] observes [[tls12]]; both end in
    [tls_min_version]. [gt tls11] and [equals 12] pass on the first and
    fail on the second, where [tls12] is compared as it stands. *)
Theorem tls_comparison_skips_list_items :
  let doc := Ex.doc_listener (VStr "tls12") in
  let first := "listener[0].tls_min_version" in
  let every := "listener[*].tls_min_version" in
  observation Ref.lib (Ex.rule_on first "gt" (VStr "tls11")) doc = VStr "tls12"
  /\ observation Ref.lib (Ex.rule_on every "gt" (VStr "tls11")) doc
     = VList [VStr "tls12"]
  /\ tls_rule (Some (Ex.rule_on every "gt" (VStr "tls11"))) = Ok true
  /\ tls_compare Ref.lib (py_ord OpGt) (VStr "tls12") (VStr "tls11") = Ok true
  /\ tls_compare Ref.lib (fun a b => Ok (py_eq a b)) (VStr "tls12") (VInt 12)
     = Ok true
  /\ passed <$> evaluate_rule Ref.lib (Ex.rule_on first "gt" (VStr "tls11")) doc
     = Ok true
  /\ passed <$> evaluate_rule Ref.lib (Ex.rule_on every "gt" (VStr "tls11")) doc
     = Ok false
  /\ passed <$> evaluate_rule Ref.lib (Ex.rule_on first "equals" (VInt 12)) doc
     = Ok true
  /\ passed <$> evaluate_rule Ref.lib (Ex.rule_on every "equals" (VInt 12)) doc
     = Ok false.
Proof. vm_compute. by repeat split. Qed.

(** C4: on the rule [listener[*].tls_min_version gt tls11] and two
    listeners at [tls12] and [tls13], the single-value predicate of the
    rule holds for each element of the flattened observation, and yet
    the verdict fails: the list branch calls the predicate without the
    rule, where [gt] is a comparison of floats and fails on both. *)
Theorem list_items_lose_the_rule :
  observation Ref.lib Ex.tls_floor Ex.two_listeners
  = VList [VStr "tls12"; VStr "tls13"]
  /\ flatten_one [VStr "tls12"; VStr "tls13"] = [VStr "tls12"; VStr "tls13"]
  /\ Forall (fun item =>
               _eval_single Ref.lib (rule_operator Ex.tls_floor) item
                 (rule_expected Ex.tls_floor) (Some Ex.tls_floor) = Ok true)
       (flatten_one [VStr "tls12"; VStr "tls13"])
  /\ Forall (fun item =>
               _eval_single Ref.lib (rule_operator Ex.tls_floor) item
                 (rule_expected Ex.tls_floor) None = Ok false)
       (flatten_one [VStr "tls12"; VStr "tls13"])
  /\ evaluate_rule Ref.lib Ex.tls_floor Ex.two_listeners
     = Ok (make_verdict Ex.tls_floor false (VList [VStr "tls12"; VStr "tls13"])).
Proof.
  split; [by vm_compute|]. split; [reflexivity|].
  split; [|split].
  - repeat constructor; by vm_compute.
  - repeat constructor; by vm_compute.
  - by vm_compute.
Qed.

(** ** Examples *)

(** Against C1 as stated: [in] with an expected value that is no
    container raises, and so does [regex] with a pattern that does not
    compile; on a single observation under a path that ends in
    [tls_min_version] a version [int] rejects raises under [equals], and
    a version that is no number raises under [gt]; a path that is no
    string raises under [equals]; and where [gt] recovers from operands
    that are no numbers, the verdict carries the observation, which is
    not null. *)
Lemma evaluate_rule_raises :
  evaluate_rule Ref.lib (Ex.rule_on "xs" "in" (VInt 5)) (Ex.doc_xs (VInt 1))
  = Raise TypeError
  /\ evaluate_rule Ref.lib (Ex.rule_on "xs" "regex" (VStr "("))
       (Ex.doc_xs (VStr "a"))
     = Raise LibraryError
  /\ evaluate_rule Ref.lib
       (Ex.rule_on "listener[0].tls_min_version" "equals" (VStr "tls12"))
       (Ex.doc_listener (VStr "tls1.2"))
     = Raise ValueError
  /\ evaluate_rule Ref.lib
       (Ex.rule_on "listener[0].tls_min_version" "gt" (VStr "tls11"))
       (Ex.doc_listener (VStr "abc"))
     = Raise TypeError
  /\ evaluate_rule Ref.lib
       {[ "jmespath" := VInt 5; "operator" := VStr "equals" ]}
       (Ex.doc_xs (VInt 1))
     = Raise AttributeError
  /\ evaluate_rule Ref.lib (Ex.rule_on "xs" "gt" (VInt 5))
       (Ex.doc_xs (VStr "abc"))
     = Ok (make_verdict (Ex.rule_on "xs" "gt" (VInt 5)) false (VStr "abc")).
Proof. vm_compute. by repeat split. Qed.

Lemma evaluate_rule_returns_witness :
  (exists v,
     evaluate_rule Ref.lib (Ex.rule_on "xs" "gt" (VInt 5))
       (Ex.doc_xs (VStr "abc")) = Ok v
     /\ observed v = VStr "abc"
     /\ passed v = false)
  /\ returns (evaluate_rule Ref.lib
                (Ex.rule_on "xs" "in" (VList [VStr "a"; VStr "b"]))
                (Ex.doc_xs (VStr "b")))
  /\ returns (evaluate_rule Ref.lib (Ex.rule_on "xs" "in" (VStr "abc"))
                (Ex.doc_xs (VList [VStr "b"; VNone])))
  /\ returns (evaluate_rule Ref.lib (Ex.rule_on "xs" "regex" (VStr "BEGIN"))
                (Ex.doc_xs (VStr "BEGIN SECRET")))
  /\ returns (evaluate_rule Ref.lib
                (Ex.rule_on "listener[0].tls_min_version" "exists" VNone)
                (Ex.doc_listener (VStr "tls1.2")))
  /\ returns (evaluate_rule Ref.lib Ex.tls_floor Ex.two_listeners)
  /\ (exists v,
        evaluate_rule Ref.lib
          (Ex.rule_on "listener[0].tls_min_version" "gt" (VStr "tls11"))
          (Ex.doc_listener (VStr "tls12")) = Ok v
        /\ observed v = VStr "tls12").
Proof.
  split; [|split; [|split; [|split; [|split; [|split]]]]].
  - destruct (evaluate_rule_returns Ref.lib (Ex.rule_on "xs" "gt" (VInt 5))
                (Ex.doc_xs (VStr "abc"))
                ltac:(vm_compute; discriminate)
                ltac:(vm_compute; discriminate)
                ltac:(intros _ _; left; reflexivity))
      as (v & Hv & Hobs & _ & _ & Hgt).
    exists v. split; [exact Hv|]. split; [exact Hobs|].
    apply Hgt; [by left | reflexivity | reflexivity |].
    left. intros [x Hx]. discriminate Hx.
  - destruct (evaluate_rule_returns Ref.lib
                (Ex.rule_on "xs" "in" (VList [VStr "a"; VStr "b"]))
                (Ex.doc_xs (VStr "b"))
                ltac:(intros _ x _ _; apply returns_Ok)
                ltac:(vm_compute; discriminate)
                ltac:(vm_compute; discriminate))
      as (v & Hv & _).
    by exists v.
  - destruct (evaluate_rule_returns Ref.lib
                (Ex.rule_on "xs" "in" (VStr "abc"))
                (Ex.doc_xs (VList [VStr "b"; VNone])))
      as (v & Hv & _).
    + intros _ x Hx Hnull.
      apply elem_of_cons in Hx as [->|Hx]; [apply returns_Ok|].
      apply list_elem_of_singleton in Hx. by destruct Hnull.
    + vm_compute; discriminate.
    + vm_compute; discriminate.
    + by exists v.
  - destruct (evaluate_rule_returns Ref.lib
                (Ex.rule_on "xs" "regex" (VStr "BEGIN"))
                (Ex.doc_xs (VStr "BEGIN SECRET"))
                ltac:(vm_compute; discriminate)
                ltac:(intros _ x _ _; apply returns_Ok)
                ltac:(vm_compute; discriminate))
      as (v & Hv & _).
    by exists v.
  - destruct (evaluate_rule_returns Ref.lib
                (Ex.rule_on "listener[0].tls_min_version" "exists" VNone)
                (Ex.doc_listener (VStr "tls1.2"))
                ltac:(vm_compute; discriminate)
                ltac:(vm_compute; discriminate)
                ltac:(vm_compute; discriminate))
      as (v & Hv & _).
    by exists v.
  - destruct (evaluate_rule_returns Ref.lib Ex.tls_floor Ex.two_listeners
                ltac:(vm_compute; discriminate)
                ltac:(vm_compute; discriminate)
                ltac:(intros _; vm_compute; discriminate))
      as (v & Hv & _).
    by exists v.
  - destruct (evaluate_rule_returns Ref.lib
                (Ex.rule_on "listener[0].tls_min_version" "gt" (VStr "tls11"))
                (Ex.doc_listener (VStr "tls12"))
                ltac:(vm_compute; discriminate)
                ltac:(vm_compute; discriminate)
                ltac:(intros _ _; right; split;
                      [reflexivity | apply returns_Ok]))
      as (v & Hv & Hobs & _).
    exists v. split; [exact Hv | exact Hobs].
Defined.

(** Against C9 as stated: of two rules the first evaluates to a passing
    verdict and the second raises; the runner raises with it and returns
    no verdict for either. *)
Lemma run_rules_for_file_returns_no_verdict :
  evaluate_rule Ref.lib (Ex.rule_on "xs" "equals" (VInt 1)) (Ex.doc_xs (VInt 1))
  = Ok (make_verdict (Ex.rule_on "xs" "equals" (VInt 1)) true (VInt 1))
  /\ evaluate_rule Ref.lib (Ex.rule_on "xs" "in" (VInt 5)) (Ex.doc_xs (VInt 1))
     = Raise TypeError
  /\ run_rules_for_file Ref.lib
       [Ex.rule_on "xs" "equals" (VInt 1); Ex.rule_on "xs" "in" (VInt 5)]
       (Ex.doc_xs (VInt 1))
     = Raise TypeError
  /\ ~ returns (run_rules_for_file Ref.lib
                  [Ex.rule_on "xs" "equals" (VInt 1);
                   Ex.rule_on "xs" "in" (VInt 5)]
                  (Ex.doc_xs (VInt 1))).
Proof.
  split; [by vm_compute|]. split; [by vm_compute|].
  assert (Hrun : run_rules_for_file Ref.lib
                   [Ex.rule_on "xs" "equals" (VInt 1);
                    Ex.rule_on "xs" "in" (VInt 5)]
                   (Ex.doc_xs (VInt 1)) = Raise TypeError) by by vm_compute.
  split; [exact Hrun|]. rewrite Hrun. apply not_returns_Raise.
Qed.

Lemma run_rules_for_file_maps_evaluate_rule_witness :
  (exists vs,
     run_rules_for_file Ref.lib
       [Ex.rule_on "xs" "equals" (VInt 1); Ex.rule_on "xs" "exists" VNone]
       (Ex.doc_xs (VInt 1)) = Ok vs
     /\ List.length vs = 2%nat
     /\ exists v, vs !! 1%nat = Some v
          /\ evaluate_rule Ref.lib (Ex.rule_on "xs" "exists" VNone)
               (Ex.doc_xs (VInt 1)) = Ok v)
  /\ run_rules_for_file Ref.lib
       [Ex.rule_on "xs" "equals" (VInt 1); Ex.rule_on "xs" "in" (VInt 5);
        Ex.rule_on "xs" "exists" VNone]
       (Ex.doc_xs (VInt 1))
     = Raise TypeError.
Proof.
  split.
  - destruct (run_rules_for_file_maps_evaluate_rule Ref.lib
                [Ex.rule_on "xs" "equals" (VInt 1);
                 Ex.rule_on "xs" "exists" VNone]
                (Ex.doc_xs (VInt 1))) as (_ & Hok & Hret & _).
    destruct Hret as [vs Hvs]; [repeat constructor; apply returns_Ok|].
    exists vs. split; [exact Hvs|].
    destruct (Hok vs Hvs) as [Hlen Hith]. split; [exact Hlen|].
    exact (Hith 1%nat (Ex.rule_on "xs" "exists" VNone) eq_refl).
  - destruct (run_rules_for_file_maps_evaluate_rule Ref.lib
                [Ex.rule_on "xs" "equals" (VInt 1);
                 Ex.rule_on "xs" "in" (VInt 5);
                 Ex.rule_on "xs" "exists" VNone]
                (Ex.doc_xs (VInt 1))) as (_ & _ & _ & Hraise).
    apply (Hraise [Ex.rule_on "xs" "equals" (VInt 1)]
             [Ex.rule_on "xs" "exists" VNone]
             (Ex.rule_on "xs" "in" (VInt 5)) TypeError eq_refl).
    + repeat constructor; apply returns_Ok.
    + reflexivity.
Defined.

(** Against C3 as stated: an operator outside [OPERATORS] passes on an
    empty list observation. *)
Lemma unknown_operator_passes_on_empty_list :
  known_operator (VStr "startswith") = false
  /\ evaluate_rule Ref.lib (Ex.rule_on "xs" "startswith" (VStr "a"))
       (Ex.doc_xs (VList []))
     = Ok (make_verdict (Ex.rule_on "xs" "startswith" (VStr "a")) true
             (VList [])).
Proof. vm_compute. by split. Qed.

Lemma unknown_operator_verdict_witness :
  exists v,
    evaluate_rule Ref.lib (Ex.rule_on "xs" "startswith" (VStr "a"))
      (Ex.doc_xs (VStr "abc")) = Ok v
    /\ passed v = false.
Proof.
  destruct (unknown_operator_verdict Ref.lib
              (Ex.rule_on "xs" "startswith" (VStr "a"))
              (Ex.doc_xs (VStr "abc")) eq_refl)
    as (v & Hv & Hsingle & _).
  exists v. split; [exact Hv | by apply Hsingle].
Defined.

(** Against C7 as stated: the observation [[null]] is not null, and
    [exists] fails on it while [absent] passes. *)
Lemma exists_fails_on_list_of_null :
  observation Ref.lib (Ex.rule_on "xs" "exists" VNone)
    (Ex.doc_xs (VList [VNone])) = VList [VNone]
  /\ evaluate_rule Ref.lib (Ex.rule_on "xs" "exists" VNone)
       (Ex.doc_xs (VList [VNone]))
     = Ok (make_verdict (Ex.rule_on "xs" "exists" VNone) false
             (VList [VNone]))
  /\ evaluate_rule Ref.lib (Ex.rule_on "xs" "absent" VNone)
       (Ex.doc_xs (VList [VNone]))
     = Ok (make_verdict (Ex.rule_on "xs" "absent" VNone) true
             (VList [VNone])).
Proof. vm_compute. by repeat split. Qed.

Lemma exists_absent_verdict_witness :
  exists v,
    evaluate_rule Ref.lib (Ex.rule_on "xs" "exists" VNone)
      (Ex.doc_xs (VInt 42)) = Ok v
    /\ passed v = true.
Proof.
  destruct (exists_absent_verdict Ref.lib (Ex.rule_on "xs" "exists" VNone)
              (Ex.doc_xs (VInt 42)) (or_introl eq_refl))
    as (v & Hv & Hexists & _).
  exists v. split; [exact Hv|].
  destruct (Hexists eq_refl) as [Hsingle _]. by apply Hsingle.
Defined.

Lemma list_observation_passes_iff_all_witness :
  (exists v,
     evaluate_rule Ref.lib (Ex.rule_on "xs" "equals" (VInt 1))
       (Ex.doc_xs (VList [])) = Ok v /\ passed v = true)
  /\ (exists v,
        evaluate_rule Ref.lib (Ex.rule_on "xs" "equals" (VInt 1))
          (Ex.doc_xs (VList [VInt 1; VInt 1; VInt 1])) = Ok v
        /\ passed v = true)
  /\ (exists v,
        evaluate_rule Ref.lib (Ex.rule_on "xs" "equals" (VInt 1))
          (Ex.doc_xs (VList [VInt 1; VInt 2; VInt 1])) = Ok v
        /\ passed v = false).
Proof.
  split; [|split].
  - destruct (list_observation_passes_iff_all Ref.lib
                (Ex.rule_on "xs" "equals" (VInt 1)) (Ex.doc_xs (VList []))
                [] eq_refl eq_refl) as (_ & _ & Hempty & _).
    by apply Hempty.
  - destruct (list_observation_passes_iff_all Ref.lib
                (Ex.rule_on "xs" "equals" (VInt 1))
                (Ex.doc_xs (VList [VInt 1; VInt 1; VInt 1]))
                [VInt 1; VInt 1; VInt 1] eq_refl eq_refl)
      as (_ & _ & _ & Hones & _).
    by apply Hones.
  - destruct (list_observation_passes_iff_all Ref.lib
                (Ex.rule_on "xs" "equals" (VInt 1))
                (Ex.doc_xs (VList [VInt 1; VInt 2; VInt 1]))
                [VInt 1; VInt 2; VInt 1] eq_refl eq_refl)
      as (_ & _ & _ & _ & Hmixed).
    by apply Hmixed.
Defined.

Lemma list_observation_regex_fails_iff_any_witness :
  (exists v,
     evaluate_rule Ref.lib (Ex.rule_on "xs" "regex" (VStr "BEGIN"))
       (Ex.doc_xs (VList [VStr "safe"; VStr "BEGIN SECRET"])) = Ok v
     /\ passed v = false)
  /\ (exists v,
        evaluate_rule Ref.lib (Ex.rule_on "xs" "regex" (VStr "BEGIN"))
          (Ex.doc_xs (VList [VList [VStr "safe"; VStr "BEGIN SECRET"]; VInt 7]))
        = Ok v
        /\ observed v = VList [VStr "safe"; VStr "BEGIN SECRET"; VInt 7]
        /\ passed v = false)
  /\ (exists v,
        evaluate_rule Ref.lib (Ex.rule_on "xs" "regex" (VStr "BEGIN"))
          (Ex.doc_xs (VList [VList [VStr "safe"]; VStr "BEGINNING"; VNone]))
        = Ok v
        /\ passed v = false)
  /\ (exists v,
        evaluate_rule Ref.lib (Ex.rule_on "xs" "regex" (VStr "BEGIN"))
          (Ex.doc_xs (VList [VList [VStr "safe"]; VStr "begin"; VNone]))
        = Ok v
        /\ observed v = VList [VStr "safe"; VStr "begin"; VNone]
        /\ passed v = true).
Proof.
  split; [|split; [|split]].
  - destruct (list_observation_regex_fails_iff_any Ref.lib
                (Ex.rule_on "xs" "regex" (VStr "BEGIN"))
                (Ex.doc_xs (VList [VStr "safe"; VStr "BEGIN SECRET"]))
                [VStr "safe"; VStr "BEGIN SECRET"] eq_refl eq_refl)
      as (_ & _ & _ & Hbegin).
    destruct (Hbegin eq_refl eq_refl eq_refl) as (Hflat & _). by apply Hflat.
  - destruct (list_observation_regex_fails_iff_any Ref.lib
                (Ex.rule_on "xs" "regex" (VStr "BEGIN"))
                (Ex.doc_xs
                   (VList [VList [VStr "safe"; VStr "BEGIN SECRET"]; VInt 7]))
                [VList [VStr "safe"; VStr "BEGIN SECRET"]; VInt 7]
                eq_refl eq_refl)
      as (_ & Hret & Hiff & _).
    destruct Hret as [v Hv]; [repeat constructor; apply returns_Ok|].
    exists v. split; [exact Hv|].
    destruct (Hiff v Hv) as (Hobs & Hfail & _).
    split; [exact Hobs|]. apply Hfail. right. left. reflexivity.
  - destruct (list_observation_regex_fails_iff_any Ref.lib
                (Ex.rule_on "xs" "regex" (VStr "BEGIN"))
                (Ex.doc_xs
                   (VList [VList [VStr "safe"]; VStr "BEGINNING"; VNone]))
                [VList [VStr "safe"]; VStr "BEGINNING"; VNone]
                eq_refl eq_refl)
      as (_ & Hret & Hiff & _).
    destruct Hret as [v Hv]; [repeat constructor; apply returns_Ok|].
    exists v. split; [exact Hv|].
    destruct (Hiff v Hv) as (_ & Hfail & _).
    apply Hfail. right. left. reflexivity.
  - destruct (list_observation_regex_fails_iff_any Ref.lib
                (Ex.rule_on "xs" "regex" (VStr "BEGIN"))
                (Ex.doc_xs
                   (VList [VList [VStr "safe"]; VStr "begin"; VNone]))
                [VList [VStr "safe"]; VStr "begin"; VNone]
                eq_refl eq_refl)
      as (_ & Hret & Hiff & _).
    destruct Hret as [v Hv]; [repeat constructor; apply returns_Ok|].
    exists v. split; [exact Hv|].
    destruct (Hiff v Hv) as (Hobs & _ & Hpass).
    split; [exact Hobs|]. apply Hpass. repeat constructor.
Defined.

Lemma flatten_one_level_before_aggregate_witness :
  flatten_one Ex.nested = [VInt 1; VList [VInt 2; VInt 3]; VInt 4]
  /\ forall v,
       evaluate_rule Ref.lib (Ex.rule_on "xs" "exists" VNone)
         (Ex.doc_xs (VList Ex.nested)) = Ok v ->
       observed v = VList [VInt 1; VList [VInt 2; VInt 3]; VInt 4].
Proof.
  destruct (flatten_one_level_before_aggregate Ref.lib
              (Ex.rule_on "xs" "exists" VNone) (Ex.doc_xs (VList Ex.nested))
              Ex.nested eq_refl) as (Hflat & _ & Hobs & _).
  split; [exact Hflat | exact Hobs].
Defined.

Lemma evaluate_rule_is_pure_witness :
  exists st',
    Store.evaluate_times Ref.lib 3 1%positive 2%positive
      {[ 1%positive := VDict (Ex.rule_on "xs" "exists" VNone);
         2%positive := Ex.doc_xs (VList Ex.nested) ]}
    = (replicate 3
         (evaluate_rule Ref.lib (Ex.rule_on "xs" "exists" VNone)
            (Ex.doc_xs (VList Ex.nested))), st')
    /\ st' !! 1%positive = Some (VDict (Ex.rule_on "xs" "exists" VNone))
    /\ st' !! 2%positive = Some (Ex.doc_xs (VList Ex.nested)).
Proof.
  assert (Hrule0 :
    ({[ 1%positive := VDict (Ex.rule_on "xs" "exists" VNone);
        2%positive := Ex.doc_xs (VList Ex.nested) ]}
       : gmap positive value) !! 1%positive
    = Some (VDict (Ex.rule_on "xs" "exists" VNone))).
  { vm_compute. reflexivity. }
  assert (Hdoc0 :
    ({[ 1%positive := VDict (Ex.rule_on "xs" "exists" VNone);
        2%positive := Ex.doc_xs (VList Ex.nested) ]}
       : gmap positive value) !! 2%positive
    = Some (Ex.doc_xs (VList Ex.nested))).
  { vm_compute. reflexivity. }
  destruct (evaluate_rule_is_pure Ref.lib 3 1%positive 2%positive _ _ _
              Hrule0 Hdoc0) as (st' & Htimes & _ & Hrule & Hdoc).
  exists st'. split; [exact Htimes|]. split; [exact Hrule | exact Hdoc].
Defined.

(** The single-value comparisons of a TLS version: [equals tls12] passes
    on [tls12] and fails on [tls13] and on null, which counts as 0. *)
Lemma tls_single_value_examples :
  let r := Ex.rule_on "listener[0].tls_min_version" "equals" (VStr "tls12") in
  passed <$> evaluate_rule Ref.lib r (Ex.doc_listener (VStr "tls12")) = Ok true
  /\ passed <$> evaluate_rule Ref.lib r (Ex.doc_listener (VStr "tls13"))
     = Ok false
  /\ passed <$> evaluate_rule Ref.lib r (Ex.doc_listener VNone) = Ok false
  /\ tls_version_to_num Ref.lib VNone = Ok (VInt 0)
  /\ tls_version_to_num Ref.lib (VStr "tls12") = Ok (VInt 12).
Proof. vm_compute. by repeat split. Qed.

(** * Further properties of the engine *)

(** ** The operator pairs *)

Section Operators.

Variable L : library.

Lemma observation_insert_operator (r : rule) (doc operator : value) :
  observation L (<["operator" := operator]> r) doc = observation L r doc.
Proof.
  unfold observation, rule_expr. by rewrite dict_get_insert_ne.
Qed.

Lemma rule_operator_insert (r : rule) (operator : value) :
  rule_operator (<["operator" := operator]> r) = operator.
Proof. unfold rule_operator, dict_get. by rewrite lookup_insert_eq. Qed.

Lemma rule_expected_insert_operator (r : rule) (operator : value) :
  rule_expected (<["operator" := operator]> r) = rule_expected r.
Proof. unfold rule_expected. by rewrite dict_get_insert_ne. Qed.

Lemma tls_rule_insert_operator (r : rule) (operator : value) :
  tls_rule (Some (<["operator" := operator]> r))
  = match dict_get r "jmespath" (VStr EmptyString) with
    | VStr p => Ok (endswith p "tls_min_version")
    | _ => Raise AttributeError
    end.
Proof.
  unfold tls_rule. rewrite dict_get_insert_ne by done.
  assert (Hsize : size (<["operator" := operator]> r) <> 0%nat).
  { intros Hz. apply map_size_empty_iff in Hz.
    by apply insert_non_empty in Hz. }
  simpl. by destruct (size _).
Qed.

(** On an observation that is not a list, [not_equals] returns exactly
    when [equals] does, raises what it raises, and gives the opposite
    verdict; this holds with and without the TLS comparison. *)
Theorem not_equals_negates_equals (r : rule) (doc : value) :
  is_list (observation L r doc) = false ->
  passed <$> evaluate_rule L (<["operator" := VStr "not_equals"]> r) doc
  = negb <$> (passed <$> evaluate_rule L (<["operator" := VStr "equals"]> r) doc).
Proof.
  intros Hlist.
  rewrite !evaluate_rule_single by by rewrite observation_insert_operator.
  rewrite !observation_insert_operator, !rule_operator_insert,
    !rule_expected_insert_operator.
  unfold _eval_single. cbn [op_is py_eq String.eqb Ascii.eqb Bool.eqb].
  rewrite !tls_rule_insert_operator.
  destruct (dict_get r "jmespath" _) as [| | | |p| |]; try done. cbn.
  destruct (endswith p _); [|done].
  destruct (tls_version_to_num L (observation L r doc)); [|done]. cbn.
  by destruct (tls_version_to_num L (rule_expected r)).
Qed.

(** On a list observation every item is compared with the expected
    value as it stands; [equals] passes when all items are equal to it
    and [not_equals] when none is, so that both pass exactly when the
    flattened list is empty. *)
Theorem equals_and_not_equals_on_a_list
    (r : rule) (doc : value) (items : list value) :
  let flat := flatten_one items in
  let same := fun item => py_eq item (rule_expected r) in
  observation L r doc = VList items ->
  passed <$> evaluate_rule L (<["operator" := VStr "equals"]> r) doc
  = Ok (forallb same flat)
  /\ passed <$> evaluate_rule L (<["operator" := VStr "not_equals"]> r) doc
     = Ok (forallb (fun item => negb (same item)) flat)
  /\ (forallb same flat && forallb (fun item => negb (same item)) flat = true
      <-> flat = []).
Proof.
  intros flat same Hobs. split; [|split].
  - rewrite (evaluate_rule_list _ _ _ items)
      by by rewrite observation_insert_operator.
    rewrite rule_operator_insert, rule_expected_insert_operator.
    rewrite aggregate_all by done.
    by rewrite (py_all_total _ same).
  - rewrite (evaluate_rule_list _ _ _ items)
      by by rewrite observation_insert_operator.
    rewrite rule_operator_insert, rule_expected_insert_operator.
    rewrite aggregate_all by done.
    by rewrite (py_all_total _ (fun item => negb (same item))).
  - destruct flat as [|item flat']; [done|]. simpl. split; [|done].
    destruct (same item); simpl; [|done]. by rewrite andb_false_r.
Qed.

(** The polarity of [regex] depends on the shape of the observation: a
    value alone passes when the pattern is found in it, and the same
    value as the only item of a list passes when it is not. *)
Theorem regex_polarity_flips_in_a_list
    (r : rule) (doc1 doc2 x : value) :
  op_is (rule_operator r) "regex" = true ->
  is_list x = false ->
  observation L r doc1 = x ->
  observation L r doc2 = VList [x] ->
  passed <$> evaluate_rule L r doc2
  = negb <$> (passed <$> evaluate_rule L r doc1).
Proof.
  intros Hop Hx Hobs1 Hobs2.
  rewrite (evaluate_rule_list _ _ _ _ Hobs2).
  rewrite evaluate_rule_single by by rewrite Hobs1.
  rewrite Hobs1, (aggregate_any _ _ _ _ Hop).
  replace (flatten_one [x]) with [x] by by destruct x.
  cbn [py_any]. apply op_is_true in Hop. rewrite Hop.
  replace (_eval_single L (VStr "regex") x (rule_expected r) (Some r))
    with (_eval_single L (VStr "regex") x (rule_expected r) None) by done.
  by destruct (_eval_single _ _ _ _ _) as [[]|].
Qed.

End Operators.

(** ** Membership, failed searches and the TLS comparison *)

Section Edges.

Variable L : library.

(** With [in], a null observation fails whatever the expected value is,
    also one that is no container; against an expected list a value
    passes when it is equal to some element, and a list observation
    passes when each of its items is non-null and equal to some
    element. *)
Theorem in_operator_verdict (r : rule) (doc : value) :
  let obs := observation L r doc in
  let member := fun (l : list value) (x : value) =>
    negb (is_none x) && existsb (fun y => py_eq y x) l in
  op_is (rule_operator r) "in" = true ->
  (obs = VNone -> passed <$> evaluate_rule L r doc = Ok false)
  /\ (forall l, rule_expected r = VList l -> is_list obs = false ->
        passed <$> evaluate_rule L r doc = Ok (member l obs))
  /\ (forall l items, rule_expected r = VList l -> obs = VList items ->
        passed <$> evaluate_rule L r doc
        = Ok (forallb (member l) (flatten_one items))).
Proof.
  intros obs member Hop. apply op_is_true in Hop.
  assert (Hitem : forall l x r',
            _eval_single L (VStr "in") x (VList l) r' = Ok (member l x)).
  { intros l x r'. unfold _eval_single, member. cbn. by destruct x. }
  split; [|split].
  - intros Hobs. rewrite evaluate_rule_single; fold obs; rewrite Hobs; [|done].
    by rewrite Hop.
  - intros l Hexp Hlist. rewrite evaluate_rule_single by done. fold obs.
    by rewrite Hop, Hexp, Hitem.
  - intros l items Hexp Hobs. rewrite (evaluate_rule_list _ _ _ _ Hobs).
    rewrite Hop, Hexp, aggregate_all by done.
    by rewrite (py_all_total _ (member l)).
Qed.

(** A path expression on which the search raises is not told apart from
    one that finds nothing: the observation is null, [absent] passes,
    [exists] fails, and with a path that is a string not ending in
    [tls_min_version] every operator gives the verdict it gives on
    null. *)
Theorem failed_search_is_null (r : rule) (doc : value) :
  ~ returns (jmespath_search L (rule_expr r) doc) ->
  observation L r doc = VNone
  /\ (rule_operator r = VStr "absent" ->
        evaluate_rule L r doc = Ok (make_verdict r true VNone))
  /\ (rule_operator r = VStr "exists" ->
        evaluate_rule L r doc = Ok (make_verdict r false VNone))
  /\ (plain_path r = true ->
        evaluate_rule L r doc
        = Ok (make_verdict r
                (null_predicate (rule_operator r) (rule_expected r)) VNone)).
Proof.
  intros Hsearch.
  assert (Hobs : observation L r doc = VNone).
  { unfold observation, extract. destruct (truthy _); [|done].
    destruct (jmespath_search _ _ _) as [x|e]; [|done].
    destruct Hsearch. apply returns_Ok. }
  split; [done|].
  rewrite evaluate_rule_single; rewrite Hobs; [|done].
  split; [|split].
  - by intros ->.
  - by intros ->.
  - intros Hpath. by rewrite eval_single_null; [|apply tls_rule_plain_path].
Qed.

(** With a path expression that ends in [tls_min_version] and an
    observation that is not a list, the four comparison operators
    compare the operands after [tls_version_to_num]; the evaluation
    raises what the conversion or the comparison raises. *)
Theorem tls_comparison_on_a_single_value (r : rule) (doc : value) :
  let obs := observation L r doc in
  let expected := rule_expected r in
  let through := fun cmp =>
    passed <$> evaluate_rule L r doc = tls_compare L cmp obs expected in
  tls_rule (Some r) = Ok true ->
  is_list obs = false ->
  (rule_operator r = VStr "equals" -> through (fun a b => Ok (py_eq a b)))
  /\ (rule_operator r = VStr "not_equals" ->
        through (fun a b => Ok (negb (py_eq a b))))
  /\ (rule_operator r = VStr "gt" -> through (py_ord OpGt))
  /\ (rule_operator r = VStr "lt" -> through (py_ord OpLt)).
Proof.
  intros obs expected through Htls Hlist. unfold through.
  rewrite evaluate_rule_single by done. fold obs expected.
  destruct (eval_single_tls L obs expected (Some r) Htls)
    as (Heq & Hne & Hgt & Hlt).
  repeat split; intros ->; rewrite ?Heq, ?Hne, ?Hgt, ?Hlt;
    unfold tls_compare;
    (destruct (tls_version_to_num L obs) as [a|]; [cbn|done]);
    (destruct (tls_version_to_num L expected) as [b|]; [cbn|done]).
  - done.
  - done.
  - by destruct (py_ord OpGt a b).
  - by destruct (py_ord OpLt a b).
Qed.

(** The TLS comparison has no guard: when the observed value starts
    with [tls] and [int] rejects what follows, the evaluation raises
    that exception, for each of the four operators. *)
Theorem tls_comparison_raises_on_a_bad_version
    (r : rule) (doc : value) (s : string) (e : exn) :
  tls_rule (Some r) = Ok true ->
  observation L r doc = VStr s ->
  startswith s "tls" = true ->
  int_of_str L (str_replace s "tls" EmptyString) = Raise e ->
  In (rule_operator r)
    [VStr "equals"; VStr "not_equals"; VStr "gt"; VStr "lt"] ->
  evaluate_rule L r doc = Raise e.
Proof.
  intros Htls Hobs Hprefix Hint Hop.
  rewrite evaluate_rule_single by by rewrite Hobs.
  rewrite Hobs.
  destruct (eval_single_tls L (VStr s) (rule_expected r) (Some r) Htls)
    as (Heq & Hne & Hgt & Hlt).
  assert (Hcmp : forall cmp,
            tls_compare L cmp (VStr s) (rule_expected r) = Raise e).
  { intros cmp. unfold tls_compare, tls_version_to_num.
    by rewrite Hprefix, Hint. }
  simpl in Hop.
  destruct Hop as [<-|[<-|[<-|[<-|[]]]]];
    by rewrite ?Heq, ?Hne, ?Hgt, ?Hlt, Hcmp.
Qed.

End Edges.

(** ** The runner and the flattening, composed *)

Section Composition.

Variable L : library.

Lemma run_rules_for_file_mapM (rules : list rule) (doc : value) :
  run_rules_for_file L rules doc = mapM (fun r => evaluate_rule L r doc) rules.
Proof.
  unfold run_rules_for_file. rewrite run_loop_mapM.
  by destruct (mapM _ rules).
Qed.

Lemma run_rules_for_file_returns
    (rules : list rule) (doc : value) :
  Forall (fun r => returns (evaluate_rule L r doc)) rules ->
  returns (run_rules_for_file L rules doc).
Proof.
  rewrite run_rules_for_file_mapM.
  induction 1 as [|r rules' [v Hv] _ [vs IH]].
  - by exists [].
  - exists (v :: vs). cbn. rewrite Hv. cbn. by rewrite IH.
Qed.

(** Running two rule sets one after the other on a document is running
    their concatenation: the verdicts of the first come first, and an
    exception in either is the exception of the whole. *)
Theorem run_rules_for_file_app (rules1 rules2 : list rule) (doc : value) :
  run_rules_for_file L (rules1 ++ rules2) doc
  = (vs1 ← run_rules_for_file L rules1 doc;
     vs2 ← run_rules_for_file L rules2 doc;
     Ok (vs1 ++ vs2)).
Proof.
  rewrite !run_rules_for_file_mapM.
  induction rules1 as [|r rules1 IH]; simpl.
  - cbn. by destruct (mapM _ rules2).
  - cbn. destruct (evaluate_rule L r doc) as [v|e]; cbn; [|done].
    rewrite IH. destruct (mapM _ rules1) as [vs1|e]; cbn; [|done].
    by destruct (mapM _ rules2).
Qed.

(** The runner raises exactly when some rule does: the exception is the
    one of the first rule that raises, and no verdict is returned, not
    even for the rules before it. *)
Theorem run_rules_for_file_raises (rules : list rule) (doc : value) (e : exn) :
  run_rules_for_file L rules doc = Raise e
  <-> exists rules1 r rules2,
        rules = rules1 ++ r :: rules2
        /\ Forall (fun r => returns (evaluate_rule L r doc)) rules1
        /\ evaluate_rule L r doc = Raise e.
Proof.
  rewrite run_rules_for_file_mapM. split.
  - induction rules as [|r rules IH]; [done|]. cbn.
    destruct (evaluate_rule L r doc) as [v|e'] eqn:Hr; cbn.
    + destruct (mapM _ rules) as [vs|e'] eqn:Hrules; cbn; [done|].
      intros [= ->]. destruct (IH eq_refl) as (rules1 & r' & rules2 & -> & H1 & H2).
      exists (r :: rules1), r', rules2. split; [done|]. split; [|done].
      constructor; [|done]. rewrite Hr. apply returns_Ok.
    + intros [= ->]. exists [], r, rules. by repeat split.
  - intros (rules1 & r & rules2 & -> & H1 & H2).
    induction H1 as [|r1 rules1 [v Hv] _ IH]; cbn.
    + by rewrite H2.
    + rewrite Hv. cbn. cbn in IH. by rewrite IH.
Qed.

(** Flattening is done item by item: it distributes over concatenation,
    and a list none of whose items is a list is left as it is. *)
Theorem flatten_one_app_and_flat (xs ys : list value) :
  flatten_one (xs ++ ys) = flatten_one xs ++ flatten_one ys
  /\ (Forall (fun x => is_list x = false) xs -> flatten_one xs = xs).
Proof.
  rewrite !flatten_one_concat. split.
  - by rewrite map_app, concat_app.
  - induction 1 as [|x xs Hx _ IH]; [done|]. simpl. rewrite IH.
    by destruct x.
Qed.

End Composition.

(** * Loading, reporting and the exit status *)

(** ** Rule files *)

Section LoaderProperties.

Variable yaml_load_file : string -> res value.
Variable items_of : value -> list value.

Local Abbreviation load := (load_rules yaml_load_file items_of).

Lemma load_rules_each (paths : list rule_paths) (rules : list value) :
  (fix each (paths : list rule_paths) (rules : list value)
     : res (list value) :=
     match paths with
     | [] => Ok rules
     | p :: paths' => loaded ← load p; each paths' (rules ++ loaded)
     end) paths rules
  = (loaded ← mapM load paths; Ok (rules ++ List.concat loaded)).
Proof.
  revert rules. induction paths as [|p paths IH]; intros rules.
  - cbn. by rewrite app_nil_r.
  - cbn. destruct (load p) as [l|e]; cbn; [|done].
    rewrite IH. destruct (mapM load paths) as [ls|e]; cbn; [|done].
    by rewrite app_assoc.
Qed.

(** Loading a list of arguments is loading each of them in order and
    concatenating what they give, so that only the order of the paths
    matters and not how they are nested; the first argument that fails
    to load makes the whole call fail. *)
Theorem load_rules_of_a_list (paths paths' : list rule_paths) :
  load (RulePaths paths) = @List.concat value <$> mapM load paths
  /\ load (RulePaths [RulePaths paths; RulePaths paths'])
     = load (RulePaths (paths ++ paths'))
  /\ (forall p, load (RulePaths [p]) = load p)
  /\ (forall before p after e,
        paths = before ++ p :: after ->
        Forall (fun q => returns (load q)) before ->
        load p = Raise e ->
        load (RulePaths paths) = Raise e).
Proof.
  assert (Hlist : forall ps,
            load (RulePaths ps) = @List.concat value <$> mapM load ps).
  { intros ps. cbn [load_rules].
    rewrite load_rules_each. by destruct (mapM load ps). }
  split; [apply Hlist|]. split; [|split].
  - assert (Hpair : forall a b,
              @List.concat value <$> mapM load [a; b]
              = (x ← load a; y ← load b; Ok (x ++ y))).
    { intros a b. cbn. destruct (load a) as [x|]; cbn; [|done].
      destruct (load b) as [y|]; cbn; [|done]. by rewrite app_nil_r. }
    rewrite (Hlist (_ ++ _)), (Hlist [_; _]), Hpair, !Hlist.
    induction paths as [|p ps IH]; cbn.
    + by destruct (mapM load paths') as [ls|].
    + destruct (load p) as [l|]; cbn; [|done].
      destruct (mapM load (ps ++ paths')) as [k|];
        destruct (mapM load ps) as [ls|];
        destruct (mapM load paths') as [ls'|]; cbn in *; try done.
      injection IH as <-. by rewrite app_assoc.
  - intros p. rewrite Hlist. cbn. destruct (load p) as [l|]; cbn; [|done].
    by rewrite app_nil_r.
  - intros before p after e -> Hbefore Hp. rewrite Hlist.
    induction Hbefore as [|q before [l Hq] _ IH]; cbn.
    + by rewrite Hp.
    + rewrite Hq. cbn. by destruct (mapM load (before ++ p :: after)).
Qed.

(** What one file contributes: a list is taken as the rules, and so is
    the list under the key [rules] of a dictionary; any other content, a
    dictionary without that key or an empty file among them, gives no
    rule and no error; a [rules] entry that is null, a boolean or a
    number raises [TypeError]; and a file that cannot be read or parsed
    raises. *)
Theorem load_rules_of_a_file (path : string) :
  (forall e, yaml_load_file path = Raise e -> load (RulePath path) = Raise e)
  /\ (forall data, yaml_load_file path = Ok data ->
        (forall l, data = VList l -> load (RulePath path) = Ok l)
        /\ (forall d l, data = VDict d -> d !! "rules" = Some (VList l) ->
              load (RulePath path) = Ok l)
        /\ (forall d, data = VDict d -> d !! "rules" = None ->
              load (RulePath path) = Ok [])
        /\ (forall d v, data = VDict d -> d !! "rules" = Some v ->
              v = VNone \/ as_num v <> None ->
              load (RulePath path) = Raise TypeError)
        /\ (data = VNone \/ as_num data <> None \/ (exists s, data = VStr s) ->
              load (RulePath path) = Ok [])).
Proof.
  cbn [load_rules]. split.
  - by intros e ->.
  - intros data ->. cbn. repeat split.
    + by intros l ->.
    + intros d l -> Hd. cbn. by rewrite Hd.
    + intros d -> Hd. cbn. by rewrite Hd.
    + intros d v -> Hd Hv. cbn. rewrite Hd.
      destruct Hv as [->|Hv]; [done|]. by destruct v.
    + intros [->|[Hnum|[s ->]]]; try done. by destruct data.
Qed.

End LoaderProperties.

(** ** The report *)

Section Report.

Variable L : library.

Lemma report_loop_mapM (all_rules : list rule) (files : list (string * value))
    (report : list file_report) :
  report_loop L all_rules files report
  = (entries ← mapM (fun f =>
                       rs ← run_rules_for_file L all_rules f.2;
                       Ok {| file := f.1; results := rs |}) files;
     Ok (report ++ entries)).
Proof.
  revert report. induction files as [|[path parsed] files IH];
    intros report; cbn.
  - by rewrite app_nil_r.
  - destruct (run_rules_for_file L all_rules parsed) as [rs|e]; cbn; [|done].
    rewrite IH. destruct (mapM _ files) as [entries|e]; cbn; [|done].
    by rewrite <- app_assoc.
Qed.

(** The report that is returned has one entry per parsed file, in the
    order of the files and under their paths, each holding what the
    runner returns for that file and so one verdict per rule; it is
    returned whenever every rule evaluates on every file. *)
Theorem build_report_entries (all_rules : list rule)
    (files : list (string * value)) :
  (forall report, build_report L all_rules files = Ok report ->
     map file report = map fst files
     /\ Forall2 (fun f entry =>
                   run_rules_for_file L all_rules f.2 = Ok (results entry))
          files report
     /\ Forall (fun entry =>
                  List.length (results entry) = List.length all_rules) report)
  /\ (Forall (fun f =>
                Forall (fun r => returns (evaluate_rule L r f.2)) all_rules)
        files ->
      returns (build_report L all_rules files)).
Proof.
  unfold build_report. rewrite report_loop_mapM. split.
  - intros report (entries & Hentries & [= <-])%bind_Ok.
    apply mapM_res_Ok in Hentries.
    induction Hentries as [|f entry files entries Hf _ IH]; [done|].
    apply bind_Ok in Hf as (rs & Hrs & [= <-]).
    destruct IH as (IH1 & IH2 & IH3). cbn. split; [by rewrite IH1|].
    split; [by constructor|]. constructor; [|done]. cbn.
    rewrite run_rules_for_file_mapM in Hrs. apply mapM_res_Ok in Hrs.
    symmetry. by eapply Forall2_length.
  - intros Hall.
    induction Hall as [|f files Hf _ [report IH]]; cbn.
    + apply returns_Ok.
    + destruct (run_rules_for_file_returns L all_rules f.2 Hf)
        as [rs Hrs].
      rewrite Hrs. cbn. apply bind_Ok in IH as (entries & -> & _). cbn.
      apply returns_Ok.
Qed.

End Report.

(** ** The exit status *)

Lemma severity_order_rank (s : string) (a : nat) :
  severity_order (VStr s) = inr a ->
  (s = "info" /\ a = 0%nat) \/ (s = "warning" /\ a = 1%nat)
  \/ (s = "critical" /\ a = 2%nat).
Proof.
  unfold severity_order.
  destruct (String.eqb s "info") eqn:H0;
    [apply String.eqb_eq in H0; intros [= <-]; by left|].
  destruct (String.eqb s "warning") eqn:H1;
    [apply String.eqb_eq in H1; intros [= <-]; right; by left|].
  destruct (String.eqb s "critical") eqn:H2;
    [apply String.eqb_eq in H2; intros [= <-]; right; by right|].
  done.
Qed.

(** Without a fail level the command ends normally whatever the report
    holds, and with any fail level it ends normally when no verdict of
    the report failed: the severity of a verdict that passed is never
    looked up. *)
Theorem fail_level_check_passes (fail_level : option string)
    (report : list file_report) :
  fail_level_check None report = None
  /\ (Forall (fun entry => Forall (fun r => passed r = true) (results entry))
        report ->
      fail_level_check fail_level report = None).
Proof.
  split; [done|]. intros Hall. destruct fail_level as [level|]; [|done].
  unfold fail_level_check. destruct (String.eqb level _); [done|].
  induction Hall as [|entry report Hentry _ IH]; [done|]. cbn.
  replace (scan_results level (results entry)) with (@None stop); [done|].
  symmetry. induction Hentry as [|r rs Hr _ IHrs]; [done|]. cbn.
  unfold at_or_above. by rewrite Hr.
Qed.

(** With a fail level among the three and every failed verdict carrying
    one of the three severities, the check exits with status 2 exactly
    when some verdict of some file failed with a severity at or above
    the level, and ends normally otherwise. *)
Theorem fail_level_check_exits (level : string) (b : nat)
    (report : list file_report) :
  severity_order (VStr level) = inr b ->
  Forall (fun entry =>
            Forall (fun r => passed r = false ->
                             exists a, severity_order (severity r) = inr a)
              (results entry)) report ->
  (fail_level_check (Some level) report = Some (SystemExit 2)
   <-> exists entry r a,
         entry ∈ report /\ r ∈ results entry /\ passed r = false
         /\ severity_order (severity r) = inr a /\ (b <= a)%nat)
  /\ (fail_level_check (Some level) report = Some (SystemExit 2)
      \/ fail_level_check (Some level) report = None).
Proof.
  intros Hlevel Hknown. unfold fail_level_check.
  assert (Hne : String.eqb level EmptyString = false).
  { destruct (severity_order_rank _ _ Hlevel) as [[-> _]|[[-> _]|[-> _]]];
      done. }
  rewrite Hne.
  assert (Hresults : forall rs,
    Forall (fun r => passed r = false ->
                     exists a, severity_order (severity r) = inr a) rs ->
    (scan_results level rs = Some (SystemExit 2)
     <-> exists r a, r ∈ rs /\ passed r = false
           /\ severity_order (severity r) = inr a /\ (b <= a)%nat)
    /\ (scan_results level rs = Some (SystemExit 2)
        \/ scan_results level rs = None)).
  { induction 1 as [|r rs Hr _ [IH1 IH2]]; cbn.
    - split; [|by right]. split; [done|].
      by intros (r & a & ?%elem_of_nil & _).
    - unfold at_or_above. rewrite Hlevel.
      destruct (passed r) eqn:Hp.
      + split; [|done]. rewrite IH1. split.
        * intros (r' & a & Hr' & H'). exists r', a. split; [by right | done].
        * intros (r' & a & Hr' & Hp' & H').
          apply elem_of_cons in Hr' as [->|Hr']; [congruence|].
          by exists r', a.
      + destruct (Hr eq_refl) as [a Ha]. rewrite Ha.
        destruct (b <=? a)%nat eqn:Hba.
        * split; [|by left]. split; [|done]. intros _.
          exists r, a. apply Nat.leb_le in Hba. split; [by left | done].
        * split; [|done]. rewrite IH1. split.
          -- intros (r' & a' & Hr' & H').
             exists r', a'. split; [by right | done].
          -- intros (r' & a' & Hr' & Hp' & Ha' & Hle).
             apply elem_of_cons in Hr' as [->|Hr'].
             ++ rewrite Ha in Ha'. injection Ha' as <-.
                apply Nat.leb_gt in Hba. lia.
             ++ by exists r', a'. }
  induction Hknown as [|entry report Hentry _ [IH1 IH2]]; cbn.
  - split; [|by right]. split; [done|].
    by intros (entry & r & a & ?%elem_of_nil & _).
  - destruct (Hresults _ Hentry) as [Hr1 Hr2].
    destruct Hr2 as [Hexit|Hnone].
    + rewrite Hexit. split; [|by left]. split; [|done]. intros _.
      apply Hr1 in Hexit as (r & a & Hr & H').
      exists entry, r, a. split; [by left | done].
    + rewrite Hnone. split; [|done]. rewrite IH1. split.
      * intros (entry' & r & a & He & H').
        exists entry', r, a. split; [by right | done].
      * intros (entry' & r & a & He & Hr & H').
        apply elem_of_cons in He as [->|He]; [|by exists entry', r, a].
        assert (Hexit : scan_results level (results entry)
                        = Some (SystemExit 2)) by (apply Hr1; by exists r, a).
        congruence.
Qed.

(** Lowering the fail level never turns an exit into a normal end: a
    report that exits at one level exits at every level below it; no
    assumption is made on the severities in the report. *)
Theorem fail_level_check_monotone (low high : string) (a b : nat)
    (report : list file_report) :
  severity_order (VStr low) = inr a ->
  severity_order (VStr high) = inr b ->
  (a <= b)%nat ->
  fail_level_check (Some high) report = Some (SystemExit 2) ->
  fail_level_check (Some low) report = Some (SystemExit 2).
Proof.
  intros Hlow Hhigh Hab. unfold fail_level_check.
  assert (Hne : forall s c, severity_order (VStr s) = inr c ->
                            String.eqb s EmptyString = false).
  { intros s c Hs.
    destruct (severity_order_rank _ _ Hs) as [[-> _]|[[-> _]|[-> _]]]; done. }
  rewrite (Hne _ _ Hlow), (Hne _ _ Hhigh).
  assert (Hresults : forall rs,
    (scan_results high rs = Some (SystemExit 2) ->
     scan_results low rs = Some (SystemExit 2))
    /\ (scan_results high rs = None ->
        scan_results low rs = Some (SystemExit 2)
        \/ scan_results low rs = None)).
  { induction rs as [|r rs [IH1 IH2]]; cbn; [by split; [|right]|].
    unfold at_or_above. rewrite Hlow, Hhigh.
    destruct (passed r); [done|].
    destruct (severity_order (severity r)) as [s|c]; [by split|].
    destruct (b <=? c)%nat eqn:Hbc.
    - apply Nat.leb_le in Hbc.
      replace (a <=? c)%nat with true
        by (symmetry; apply Nat.leb_le; lia).
      by split.
    - destruct (a <=? c)%nat; [|done]. split; [done|]. by left. }
  induction report as [|entry report IH]; [done|]. cbn.
  destruct (Hresults (results entry)) as [H1 H2].
  destruct (scan_results high (results entry)) as [s|] eqn:Hs.
  - intros [= ->]. by rewrite H1.
  - intros Hrest. destruct (H2 eq_refl) as [->| ->]; [done|]. by apply IH.
Qed.

(** The verdict carries the fields of the rule. *)
Lemma evaluate_rule_metadata (L : library) (r : rule) (doc : value)
    (v : verdict) :
  evaluate_rule L r doc = Ok v -> v = make_verdict r (passed v) (observed v).
Proof.
  destruct (is_list (observation L r doc)) eqn:Hlist.
  - destruct (observation L r doc) as [| | | | |items|] eqn:Hobs; try done.
    rewrite (evaluate_rule_list _ _ _ _ Hobs).
    by intros (p & _ & [= <-])%bind_Ok.
  - rewrite (evaluate_rule_single _ _ _ Hlist).
    by intros (p & _ & [= <-])%bind_Ok.
Qed.

(** The severity the check looks up is the one written in the rule: for
    a rule that failed, a missing severity counts as [info], so that the
    check exits at the level [info] and at no other; a severity that is
    null or a string other than the three names ends the command with a
    [KeyError] at every level. *)
Theorem fail_level_check_of_a_failed_rule (L : library) (r : rule)
    (doc : value) (v : verdict) (path level : string) (b : nat) :
  evaluate_rule L r doc = Ok v ->
  passed v = false ->
  severity_order (VStr level) = inr b ->
  let check := fail_level_check (Some level) [FileReport path [v]] in
  (r !! "severity" = None ->
     check = if Nat.eqb b 0 then Some (SystemExit 2) else None)
  /\ (r !! "severity" = Some VNone -> check = Some KeyError)
  /\ (forall s, r !! "severity" = Some (VStr s) ->
        s <> "info" -> s <> "warning" -> s <> "critical" ->
        check = Some KeyError).
Proof.
  intros Hv Hp Hlevel check. apply evaluate_rule_metadata in Hv.
  assert (Hsev : severity v = dict_get r "severity" (VStr "info"))
    by by rewrite Hv.
  assert (Hne : String.eqb level EmptyString = false).
  { destruct (severity_order_rank _ _ Hlevel) as [[-> _]|[[-> _]|[-> _]]];
      done. }
  unfold check, fail_level_check. rewrite Hne. cbn.
  unfold at_or_above. rewrite Hp, Hsev, Hlevel. unfold dict_get.
  split; [|split].
  - intros ->. cbn. by destruct b.
  - by intros ->.
  - intros s -> H0 H1 H2. cbn.
    apply String.eqb_neq in H0, H1, H2. by rewrite H0, H1, H2.
Qed.

(** ** The figures of the console report *)

Lemma count_cons (cond : verdict -> bool) (r : verdict) (rs : list verdict) :
  count cond (r :: rs) = ((if cond r then 1 else 0) + count cond rs)%nat.
Proof. unfold count. cbn. by destruct (cond r). Qed.

Lemma count_passed_le (rs : list verdict) :
  (count passed rs <= List.length rs)%nat.
Proof.
  induction rs as [|r rs IH]; [done|]. rewrite count_cons. cbn.
  destruct (passed r); lia.
Qed.

Lemma count_failed (rs : list verdict) :
  (List.length rs - count passed rs)%nat
  = count (fun r => negb (passed r)) rs.
Proof.
  induction rs as [|r rs IH]; [done|].
  pose proof (count_passed_le rs). rewrite !count_cons. cbn.
  destruct (passed r); cbn; lia.
Qed.

Lemma py_eq_VStr (v : value) (s : string) :
  py_eq v (VStr s) = true <-> v = VStr s.
Proof. apply op_is_true. Qed.

(** In the summary of a file the passed and the failed rules add up to
    the total; the three failure counts by severity never exceed the
    failed rules, and they add up to them exactly when every failed
    verdict carries one of the three severities. *)
Theorem summarize_counts (rs : list verdict) :
  let s := summarize rs in
  (passed_rules s + failed_rules s = total_rules s)%nat
  /\ (critical_failed s + warning_failed s + info_failed s
      <= failed_rules s)%nat
  /\ ((critical_failed s + warning_failed s + info_failed s
       = failed_rules s)%nat
      <-> Forall (fun r => passed r = false ->
                           exists a, severity_order (severity r) = inr a) rs).
Proof.
  cbn. pose proof (count_passed_le rs) as Hle.
  split; [lia|]. rewrite count_failed. clear Hle.
  induction rs as [|r rs [IH1 IH2]]; [by repeat split|].
  rewrite !count_cons.
  assert (Hfa : forall level,
            failed_as level r
            = negb (passed r) && py_eq (severity r) (VStr level)) by done.
  rewrite !Hfa. clear Hfa.
  destruct (passed r) eqn:Hp; cbn [negb andb].
  - rewrite !Nat.add_0_l. split; [done|]. rewrite IH2. split.
    + intros Hrs. constructor; [congruence | done].
    + by inversion 1.
  - assert (Hone :
      exists k : nat,
        ((if py_eq (severity r) (VStr "critical") then 1 else 0)
         + (if py_eq (severity r) (VStr "warning") then 1 else 0)
         + (if py_eq (severity r) (VStr "info") then 1 else 0) = k)%nat
        /\ (k <= 1)%nat
        /\ (k = 1%nat <-> exists a, severity_order (severity r) = inr a)).
    { destruct (py_eq (severity r) (VStr "critical")) eqn:Hc.
      { apply py_eq_VStr in Hc as ->. exists 1%nat. cbn.
        repeat split; try lia. intros _. by exists 2%nat. }
      destruct (py_eq (severity r) (VStr "warning")) eqn:Hw.
      { apply py_eq_VStr in Hw as ->. exists 1%nat. cbn.
        repeat split; try lia. intros _. by exists 1%nat. }
      destruct (py_eq (severity r) (VStr "info")) eqn:Hi.
      { apply py_eq_VStr in Hi as ->. exists 1%nat. cbn.
        repeat split; try lia. intros _. by exists 0%nat. }
      exists 0%nat. split; [done|]. split; [lia|]. split; [lia|].
      intros [a Ha]. destruct (severity r) as [| | | |s| |]; try done.
      destruct (severity_order_rank _ _ Ha) as [[-> _]|[[-> _]|[-> _]]];
        cbn in *; congruence. }
    destruct Hone as (k & Hk & Hk1 & Hknown).
    split; [cbn; lia|]. split.
    + intros Hsum. constructor.
      * intros _. apply Hknown. cbn in Hsum. lia.
      * apply IH2. cbn in Hsum. lia.
    + inversion 1 as [|? ? Hr Hrs]; subst.
      apply IH2 in Hrs. apply Hknown in Hr; [|done]. cbn. lia.
Qed.

(** In the console format the message that no issue was found replaces
    the tables exactly when no file of the report has a failed rule, an
    empty report and files without verdicts included. *)
Theorem no_issues_iff_nothing_failed (report : list file_report) :
  no_issues report = true
  <-> Forall (fun entry => failed_rules (summarize (results entry)) = 0%nat)
        report.
Proof.
  assert (Hfile : forall rs,
            forallb passed rs = true
            <-> failed_rules (summarize rs) = 0%nat).
  { intros rs. cbn. induction rs as [|r rs IH]; [done|].
    pose proof (count_passed_le rs). rewrite count_cons. cbn.
    destruct (passed r); cbn; [rewrite IH; lia|]. split; [done | lia]. }
  unfold no_issues. destruct report as [|entry report]; [done|].
  cbn [List.length Nat.eqb orb].
  rewrite forallb_forall, Forall_forall. split.
  - intros H e He. apply Hfile, H. by apply list_elem_of_In.
  - intros H e He. apply Hfile, H. by apply list_elem_of_In.
Qed.

(** * Default values and parsing *)

(** ** Default values *)

Lemma default_key_dict (key : string) (dflt : value)
    (d : gmap string value) :
  default_key key dflt (VDict d)
  = Ok (VDict (match d !! key with
               | Some _ => d
               | None => <[key := dflt]> d
               end)).
Proof.
  unfold default_key. cbn.
  destruct (d !! key) as [x|] eqn:Hd.
  - by rewrite bool_decide_eq_true_2.
  - rewrite bool_decide_eq_false_2; [done|]. by intros [x Hx].
Qed.

(** On a dictionary a table of defaults is a union: what is there
    stays, and what is missing comes from the table. *)
Lemma default_keys_dict (defaults : list (string * value))
    (d : gmap string value) :
  default_keys defaults (VDict d) = Ok (VDict (d ∪ list_to_map defaults)).
Proof.
  revert d. induction defaults as [|[key dflt] defaults IH]; intros d;
    cbn [default_keys].
  - cbn. by rewrite (right_id_L ∅ (∪)).
  - rewrite default_key_dict. cbn [mbind res_bind]. rewrite IH. do 2 f_equal.
    rewrite list_to_map_cons. apply map_eq. intros k.
    destruct (d !! key) as [x|] eqn:Hd;
      rewrite !lookup_union, ?lookup_insert;
      destruct (decide (key = k)) as [<-|Hk]; rewrite ?Hd; try done.
    + by destruct (list_to_map defaults !! key).
    + by destruct (list_to_map defaults !! key).
Qed.

Lemma py_in_raises (item container : value) (e : exn) :
  py_in item container = Raise e -> e = TypeError.
Proof.
  unfold py_in. destruct container, item; try done; by intros [= <-].
Qed.

Lemma default_keys_raises (defaults : list (string * value)) (cfg : value)
    (e : exn) :
  default_keys defaults cfg = Raise e -> e = TypeError.
Proof.
  revert cfg. induction defaults as [|[key dflt] defaults IH]; intros cfg;
    cbn; [done|].
  destruct (default_key key dflt cfg) as [cfg'|e'] eqn:Hkey; cbn.
  - apply IH.
  - intros [= <-]. unfold default_key in Hkey.
    destruct (py_in (VStr key) cfg) as [[]|e''] eqn:Hin; cbn in Hkey.
    + done.
    + destruct cfg; congruence.
    + injection Hkey as <-. by eapply py_in_raises.
Qed.

Lemma default_keys_of_no_container (defaults : list (string * value))
    (cfg : value) :
  defaults <> [] ->
  cfg = VNone \/ as_num cfg <> None ->
  default_keys defaults cfg = Raise TypeError.
Proof.
  destruct defaults as [|[key dflt] defaults]; [done|]. intros _ Hcfg. cbn.
  by destruct Hcfg as [->|Hnum]; [|destruct cfg].
Qed.

Section Table.

Variable defaults : list (string * value).
Hypothesis defaults_NoDup : NoDup defaults.*1.

(** The facts about a dictionary after a table of defaults that the
    three products share. *)
Lemma union_defaults (d : gmap string value) :
  let d' := d ∪ list_to_map defaults in
  (forall k v, d !! k = Some v -> d' !! k = Some v)
  /\ (forall k v, (k, v) ∈ defaults -> d !! k = None -> d' !! k = Some v)
  /\ (forall k, k ∉ defaults.*1 -> d' !! k = d !! k)
  /\ d' ∪ list_to_map defaults = d'.
Proof.
  cbn. split; [|split; [|split]].
  - intros k v Hk. by apply lookup_union_Some_l.
  - intros k v Hkv Hk. rewrite lookup_union_r by done.
    by apply elem_of_list_to_map_1.
  - intros k Hk. rewrite lookup_union.
    rewrite (not_elem_of_list_to_map_1 _ _ Hk). by destruct (d !! k).
  - by rewrite <- (assoc_L (∪)), (idemp_L (∪)).
Qed.

End Table.

Lemma nomad_defaults_NoDup : NoDup nomad_defaults.*1.
Proof. by apply (bool_decide_unpack _). Qed.

Lemma consul_defaults_NoDup : NoDup consul_defaults.*1.
Proof. by apply (bool_decide_unpack _). Qed.

Lemma vault_defaults_NoDup : NoDup vault_defaults.*1.
Proof. by apply (bool_decide_unpack _). Qed.

Lemma listener_defaults_NoDup : NoDup listener_defaults.*1.
Proof. by apply (bool_decide_unpack _). Qed.

(** On a dictionary [inject_nomad_defaults] never fails; it keeps every
    entry of the configuration, gives each of the five keys it knows its
    default when the key is missing, adds no other key, and changes
    nothing when applied a second time. *)
Theorem inject_nomad_defaults_dict (d : gmap string value) :
  exists d',
    inject_nomad_defaults (VDict d) = Ok (VDict d')
    /\ (forall k v, d !! k = Some v -> d' !! k = Some v)
    /\ (forall k v, (k, v) ∈ nomad_defaults -> d !! k = None ->
          d' !! k = Some v)
    /\ (forall k, k ∉ nomad_defaults.*1 -> d' !! k = d !! k)
    /\ inject_nomad_defaults (VDict d') = Ok (VDict d').
Proof.
  unfold inject_nomad_defaults. eexists. rewrite default_keys_dict.
  split; [done|].
  destruct (union_defaults _ nomad_defaults_NoDup d) as (H1 & H2 & H3 & H4).
  repeat split; try done. by rewrite default_keys_dict, H4.
Qed.

Lemma inject_consul_defaults_unfold (d : gmap string value) :
  inject_consul_defaults (VDict d)
  = Ok (VDict (match d !! "addresses" with
               | Some (VDict a) =>
                   <["addresses" :=
                       VDict (match a !! "http" with
                              | Some _ => a
                              | None => <["http" := VStr "127.0.0.1"]> a
                              end)]> (d ∪ list_to_map consul_defaults)
               | _ => d ∪ list_to_map consul_defaults
               end)).
Proof.
  unfold inject_consul_defaults. rewrite default_keys_dict.
  cbn [mbind res_bind py_in].
  assert (Haddr : (d ∪ list_to_map consul_defaults) !! "addresses"
                  = d !! "addresses").
  { rewrite lookup_union.
    replace (list_to_map consul_defaults !! "addresses") with (@None value)
      by done.
    by destruct (d !! "addresses"). }
  rewrite Haddr. destruct (d !! "addresses") as [x|] eqn:Hd.
  - rewrite bool_decide_eq_true_2 by done. cbn [mbind res_bind].
    destruct x; try done. by rewrite default_key_dict.
  - rewrite bool_decide_eq_false_2; [done|]. by intros [x Hx].
Qed.

(** On a dictionary [inject_consul_defaults] never fails; it keeps every
    entry other than [addresses], gives each of the four keys it knows
    its default when the key is missing, gives a dictionary under
    [addresses] the default [http] address when it has none and leaves
    any other [addresses] alone, and changes nothing when applied a
    second time. *)
Theorem inject_consul_defaults_dict (d : gmap string value) :
  exists d',
    inject_consul_defaults (VDict d) = Ok (VDict d')
    /\ (forall k v, k <> "addresses" -> d !! k = Some v -> d' !! k = Some v)
    /\ (forall k v, (k, v) ∈ consul_defaults -> d !! k = None ->
          d' !! k = Some v)
    /\ (forall a, d !! "addresses" = Some (VDict a) ->
          d' !! "addresses"
          = Some (VDict (match a !! "http" with
                         | Some _ => a
                         | None => <["http" := VStr "127.0.0.1"]> a
                         end)))
    /\ (forall x, d !! "addresses" = Some x ->
          (forall a, x <> VDict a) -> d' !! "addresses" = Some x)
    /\ (d !! "addresses" = None -> d' !! "addresses" = None)
    /\ inject_consul_defaults (VDict d') = Ok (VDict d').
Proof.
  destruct (union_defaults _ consul_defaults_NoDup d) as (H1 & H2 & H3 & H4).
  set (u := d ∪ list_to_map consul_defaults) in *.
  assert (Haddr : u !! "addresses" = d !! "addresses")
    by (apply H3; by apply (bool_decide_unpack _)).
  assert (Hstep : forall m : gmap string value,
    m ∪ list_to_map consul_defaults = m ->
    (has ← py_in (VStr "addresses") (VDict m);
     if has : bool then
       match m !! "addresses" with
       | Some (VDict addresses) =>
           addresses ← default_key "http" (VStr "127.0.0.1") (VDict addresses);
           Ok (VDict (<["addresses" := addresses]> m))
       | _ => Ok (VDict m)
       end
     else Ok (VDict m))
    = Ok (VDict (match m !! "addresses" with
                 | Some (VDict a) =>
                     <["addresses" :=
                         VDict (match a !! "http" with
                                | Some _ => a
                                | None => <["http" := VStr "127.0.0.1"]> a
                                end)]> m
                 | _ => m
                 end))).
  { intros m _. cbn [py_in]. destruct (m !! "addresses") as [x|] eqn:Hm.
    - rewrite bool_decide_eq_true_2 by done. cbn [mbind res_bind].
      destruct x; try done. by rewrite default_key_dict.
    - rewrite bool_decide_eq_false_2; [done|]. by intros [x Hx]. }
  assert (Heval : forall m : gmap string value,
    m ∪ list_to_map consul_defaults = m ->
    inject_consul_defaults (VDict m)
    = Ok (VDict (match m !! "addresses" with
                 | Some (VDict a) =>
                     <["addresses" :=
                         VDict (match a !! "http" with
                                | Some _ => a
                                | None => <["http" := VStr "127.0.0.1"]> a
                                end)]> m
                 | _ => m
                 end))).
  { intros m Hm. unfold inject_consul_defaults.
    rewrite default_keys_dict, Hm. cbn -[py_in]. by apply Hstep. }
  eexists. split.
  { unfold inject_consul_defaults. rewrite default_keys_dict. fold u.
    cbn -[py_in]. by apply Hstep. }
  rewrite Haddr. split; [|split; [|split; [|split; [|split]]]].
  - intros k v Hk Hd. destruct (d !! "addresses") as [[]|];
      rewrite ?lookup_insert_ne by done; by apply H1.
  - intros k v Hkv Hd.
    assert (k <> "addresses").
    { intros ->.
      assert (Hnot : "addresses" ∉ consul_defaults.*1)
        by by apply (bool_decide_unpack _).
      apply Hnot. by apply (list_elem_of_fmap_2 fst _ ("addresses", v)). }
    destruct (d !! "addresses") as [[]|];
      rewrite ?lookup_insert_ne by done; by apply H2.
  - intros a ->. by rewrite lookup_insert_eq.
  - intros x Hd Hx. rewrite Hd.
    destruct x as [| | | | | |a]; try by rewrite Haddr. by destruct (Hx a).
  - intros Hd. rewrite Hd. by rewrite Haddr.
  - destruct (d !! "addresses") as [[| | | | | |a]|] eqn:Hd;
      try (rewrite (Heval _ H4), Haddr; done).
    rewrite Heval.
    + rewrite lookup_insert_eq, insert_insert_eq.
      by destruct (a !! "http") eqn:Ha; rewrite ?Ha, ?lookup_insert_eq.
    + apply map_eq. intros k. rewrite lookup_union.
      destruct (decide (k = "addresses")) as [->|Hk].
      * rewrite lookup_insert_eq.
        by destruct (list_to_map consul_defaults !! "addresses").
      * rewrite lookup_insert_ne by done.
        rewrite <- H4 at 2. by rewrite lookup_union.
Qed.

Lemma mapM_default_keys_dicts (defaults : list (string * value))
    (ls : list (gmap string value)) :
  mapM (default_keys defaults) (VDict <$> ls)
  = Ok (VDict <$> ((fun l => l ∪ list_to_map defaults) <$> ls)).
Proof.
  induction ls as [|l ls IH]; [done|]. cbn [fmap list_fmap mapM].
  rewrite default_keys_dict. cbn [mbind res_bind]. fold (fmap VDict ls).
  by rewrite IH.
Qed.

Lemma mapM_raises_TypeError {A B} (f : A -> res B) (l : list A) (x : A) :
  (forall y e, f y = Raise e -> e = TypeError) ->
  x ∈ l -> f x = Raise TypeError -> mapM f l = Raise TypeError.
Proof.
  intros Hf Hx Hfx. induction l as [|y l IH]; [by apply elem_of_nil in Hx|].
  cbn. destruct (f y) as [b|e] eqn:Hy; cbn.
  - apply elem_of_cons in Hx as [->|Hx]; [congruence|].
    by rewrite IH.
  - by rewrite (Hf _ _ Hy).
Qed.

(** [inject_vault_defaults] on a dictionary, by the shape of what is
    under [listener]. *)
Lemma inject_vault_defaults_unfold (d : gmap string value) :
  inject_vault_defaults (VDict d)
  = match d !! "listener" with
    | Some (VList listeners) =>
        listeners ← mapM (default_keys listener_defaults) listeners;
        Ok (VDict (<["listener" := VList listeners]> d
                   ∪ list_to_map vault_defaults))
    | _ => Ok (VDict (d ∪ list_to_map vault_defaults))
    end.
Proof.
  unfold inject_vault_defaults. cbn [py_in].
  destruct (d !! "listener") as [x|] eqn:Hd.
  - rewrite bool_decide_eq_true_2 by done. cbn [mbind res_bind].
    destruct x as [| | | | |listeners|]; cbn [mbind res_bind];
      try by rewrite default_keys_dict.
    destruct (mapM _ listeners) as [ls|e]; cbn [mbind res_bind]; [|done].
    by rewrite default_keys_dict.
  - rewrite bool_decide_eq_false_2 by by intros [x Hx].
    cbn [mbind res_bind]. by rewrite default_keys_dict.
Qed.

(** On a configuration whose listeners are dictionaries
    [inject_vault_defaults] does not fail: every listener keeps its
    entries and gets the eight listener defaults it lacks, [tls12] as
    minimum TLS version among them; the other entries of the
    configuration are kept, the four top-level defaults are added where
    missing, and a second application changes nothing. *)
Theorem inject_vault_defaults_dict (d : gmap string value)
    (ls : list (gmap string value)) :
  d !! "listener" = Some (VList (VDict <$> ls)) ->
  exists d',
    inject_vault_defaults (VDict d) = Ok (VDict d')
    /\ d' !! "listener"
       = Some (VList (VDict <$>
                 ((fun l => l ∪ list_to_map listener_defaults) <$> ls)))
    /\ (forall (i : nat) l, ls !! i = Some l ->
          exists l',
            ((fun l => l ∪ list_to_map listener_defaults) <$> ls) !! i
            = Some l'
            /\ (forall k v, l !! k = Some v -> l' !! k = Some v)
            /\ (forall k v, (k, v) ∈ listener_defaults -> l !! k = None ->
                  l' !! k = Some v)
            /\ l' !! "tls_min_version"
               = Some (default (VStr "tls12") (l !! "tls_min_version")))
    /\ (forall k v, k <> "listener" -> d !! k = Some v -> d' !! k = Some v)
    /\ (forall k v, (k, v) ∈ vault_defaults -> d !! k = None ->
          d' !! k = Some v)
    /\ inject_vault_defaults (VDict d') = Ok (VDict d').
Proof.
  intros Hd. eexists. split.
  { rewrite inject_vault_defaults_unfold, Hd, mapM_default_keys_dicts.
    reflexivity. }
  set (ls' := (fun l => l ∪ list_to_map listener_defaults) <$> ls).
  set (d1 := <["listener" := VList (VDict <$> ls')]> d).
  destruct (union_defaults _ vault_defaults_NoDup d1) as (H1 & H2 & H3 & H4).
  assert (Hlistener : (d1 ∪ list_to_map vault_defaults) !! "listener"
                      = Some (VList (VDict <$> ls'))).
  { apply H1. unfold d1. by rewrite lookup_insert_eq. }
  split; [done|]. split; [|split; [|split; [|]]].
  - intros i l Hl. exists (l ∪ list_to_map listener_defaults).
    destruct (union_defaults _ listener_defaults_NoDup l) as (G1 & G2 & _).
    split; [unfold ls'; by rewrite list_lookup_fmap, Hl|].
    split; [done|]. split; [done|].
    destruct (l !! "tls_min_version") as [v|] eqn:Htls; cbn.
    + by apply G1.
    + apply G2; [|done]. set_solver.
  - intros k v Hk Hv. apply H1. unfold d1. by rewrite lookup_insert_ne.
  - intros k v Hkv Hv. apply H2; [done|].
    assert (k <> "listener").
    { intros ->.
      assert (Hnot : "listener" ∉ vault_defaults.*1)
        by by apply (bool_decide_unpack _).
      apply Hnot. by apply (list_elem_of_fmap_2 fst _ ("listener", v)). }
    unfold d1. by rewrite lookup_insert_ne.
  - rewrite inject_vault_defaults_unfold, Hlistener, mapM_default_keys_dicts.
    cbn [mbind res_bind]. do 2 f_equal.
    assert (Hls : (fun l => l ∪ list_to_map listener_defaults) <$> ls' = ls').
    { unfold ls'. rewrite <- list_fmap_compose. apply list_fmap_ext.
      intros _ l _. cbn.
      by rewrite <- (assoc_L (∪)), (idemp_L (∪)). }
    rewrite Hls, insert_id by done. exact H4.
Qed.

(** [inject_vault_defaults] has no guard on the kind of a listener: a
    listener that is null, a boolean or a number makes it raise
    [TypeError], wherever it stands in the list. *)
Theorem inject_vault_defaults_raises (d : gmap string value)
    (listeners : list value) (x : value) :
  d !! "listener" = Some (VList listeners) ->
  x ∈ listeners ->
  x = VNone \/ as_num x <> None ->
  inject_vault_defaults (VDict d) = Raise TypeError.
Proof.
  intros Hd Hx Hkind. rewrite inject_vault_defaults_unfold, Hd.
  rewrite (mapM_raises_TypeError _ _ x); [done| |done|].
  - intros y e. apply default_keys_raises.
  - by apply default_keys_of_no_container.
Qed.

(** ** The product detection *)

Lemma has_keys_dict (keys : list string) (d : gmap string value) :
  has_keys keys (VDict d)
  = Ok (forallb (fun key => bool_decide (is_Some (d !! key))) keys).
Proof. unfold has_keys. by apply py_all_total. Qed.

(** On a dictionary the detection goes by the keys at the top: [storage]
    and [listener] call for the Vault defaults, whatever else is there;
    failing that, [datacenter], [data_dir] and [region] call for the
    Nomad defaults, and [datacenter] and [data_dir] alone for the Consul
    ones; any other document is returned as it is. Whatever is returned
    is a dictionary that keeps every entry of the document, [listener]
    and [addresses] apart. *)
Theorem inject_product_defaults_dict (d : gmap string value) :
  let vault := is_Some (d !! "storage") /\ is_Some (d !! "listener") in
  let consul := is_Some (d !! "datacenter") /\ is_Some (d !! "data_dir") in
  (vault ->
     inject_product_defaults (VDict d) = inject_vault_defaults (VDict d))
  /\ (~ vault -> consul -> is_Some (d !! "region") ->
        inject_product_defaults (VDict d) = inject_nomad_defaults (VDict d))
  /\ (~ vault -> consul -> d !! "region" = None ->
        inject_product_defaults (VDict d) = inject_consul_defaults (VDict d))
  /\ (~ vault -> ~ consul -> inject_product_defaults (VDict d) = Ok (VDict d))
  /\ (forall doc', inject_product_defaults (VDict d) = Ok doc' ->
        exists d', doc' = VDict d'
          /\ forall k v, k <> "listener" -> k <> "addresses" ->
               d !! k = Some v -> d' !! k = Some v).
Proof.
  intros vault consul. unfold inject_product_defaults.
  rewrite !has_keys_dict. cbn [forallb mbind res_bind].
  rewrite !andb_true_r.
  destruct (d !! "storage") as [s|] eqn:Hs;
    destruct (d !! "listener") as [l|] eqn:Hl;
    destruct (d !! "datacenter") as [dc|] eqn:Hdc;
    destruct (d !! "data_dir") as [dd|] eqn:Hdd;
    destruct (d !! "region") as [rg|] eqn:Hrg;
    try rewrite !(bool_decide_eq_true_2 (is_Some (Some _))) by done;
    try rewrite !(bool_decide_eq_false_2 (is_Some None))
      by (by intros [? ?]);
    cbn [andb];
    (split; [try done; intros [[? ?] [? ?]]; done|]);
    (split; [try done; try (intros _ [[? ?] [? ?]]; done);
             try (intros _ _ [? ?]; done);
             try (intros Hv; destruct Hv; by split) |]);
    (split; [try done; try (intros _ [[? ?] [? ?]]; done);
             try (intros Hv; destruct Hv; by split) |]);
    (split; [try done;
             try (intros Hv; destruct Hv; by split);
             try (intros _ Hc; destruct Hc; by split) |]).
  all: intros doc'.
  all: try (intros [= <-]; by exists d).
  all: try (unfold inject_nomad_defaults; rewrite default_keys_dict;
            intros [= <-]; eexists; split; [done|];
            intros k v _ _ Hk; by apply lookup_union_Some_l).
  all: try (rewrite inject_consul_defaults_unfold;
            intros [= <-]; eexists; split; [done|];
            intros k v _ Hk Hv;
            destruct (d !! "addresses") as [[]|];
            rewrite ?lookup_insert_ne by done;
            by apply lookup_union_Some_l).
  all: rewrite inject_vault_defaults_unfold, Hl;
    destruct l as [| | | | |listeners|];
    try (intros [= <-]; eexists; split; [done|];
         intros k v _ _ Hk; by apply lookup_union_Some_l).
  all: destruct (mapM _ listeners) as [ls'|]; cbn [mbind res_bind]; [|done];
    intros [= <-]; eexists; split; [done|];
    intros k v Hk _ Hv; apply lookup_union_Some_l;
    by rewrite lookup_insert_ne.
Qed.

(** ** Parsing and collecting files *)

Section ParserProperties.

Variable read_text : string -> res string.
Variable json_loads : string -> res value.
Variable hcl2_loads : string -> res value.
Variable yaml_safe_load : string -> res value.
Variable normalize_blocks : list value -> res value.

Local Abbreviation parse :=
  (parse_file read_text json_loads hcl2_loads yaml_safe_load normalize_blocks).

(** What [parse_file] can end with: a file that cannot be read raises
    what reading raises; a text that parses as JSON is returned as
    parsed, with no defaults added; once the text is read the only
    exception is [ValueError], whatever the parsers and the defaults
    raise on the way; and a YAML document that is not a dictionary is
    returned as it is when the two earlier attempts fail. *)
Theorem parse_file_outcomes (path : string) :
  (forall e, read_text path = Raise e -> parse path = Raise e)
  /\ (forall text, read_text path = Ok text ->
        (forall parsed, json_loads text = Ok parsed ->
           parse path = Ok parsed)
        /\ (forall e, parse path = Raise e -> e = ValueError)
        /\ (forall doc,
              ~ returns (json_loads text) ->
              ~ returns (hcl2_loads text) ->
              yaml_safe_load text = Ok doc ->
              (forall d, doc <> VDict d) ->
              parse path = Ok doc)).
Proof.
  unfold parse_file. split.
  - by intros e ->.
  - intros text ->. cbn [mbind res_bind]. split; [|split].
    + by intros parsed ->.
    + intros e. by repeat case_match; intros [= <-].
    + intros doc Hjson Hhcl Hyaml Hdoc.
      destruct (json_loads text); [destruct Hjson; apply returns_Ok|].
      destruct (hcl2_loads text); [destruct Hhcl; apply returns_Ok|].
      cbn [mbind res_bind]. rewrite Hyaml. cbn [mbind res_bind].
      destruct doc; try done. by destruct (Hdoc d).
Qed.

(** A Vault configuration in YAML one of whose listeners is null, a
    boolean or a number is turned down as a malformed file: the
    [TypeError] of the defaults is swallowed and [ValueError] is raised
    in its place. *)
Theorem parse_file_rejects_a_bad_listener (path text : string)
    (d : gmap string value) (listeners : list value) (x : value) :
  read_text path = Ok text ->
  ~ returns (json_loads text) ->
  ~ returns (hcl2_loads text) ->
  yaml_safe_load text = Ok (VDict d) ->
  is_Some (d !! "storage") ->
  d !! "listener" = Some (VList listeners) ->
  x ∈ listeners ->
  x = VNone \/ as_num x <> None ->
  parse path = Raise ValueError.
Proof.
  intros Hread Hjson Hhcl Hyaml Hstorage Hd Hx Hkind.
  unfold parse_file. rewrite Hread. cbn [mbind res_bind].
  destruct (json_loads text); [destruct Hjson; apply returns_Ok|].
  destruct (hcl2_loads text); [destruct Hhcl; apply returns_Ok|].
  cbn [mbind res_bind]. rewrite Hyaml. cbn [mbind res_bind].
  unfold inject_product_defaults.
  rewrite (has_keys_dict ["storage"; "listener"]).
  cbn [forallb mbind res_bind].
  rewrite Hd, !bool_decide_eq_true_2 by done. cbn [andb].
  rewrite inject_vault_defaults_unfold, Hd.
  rewrite (mapM_raises_TypeError _ _ x); [done| |done|].
  - intros y e'. apply default_keys_raises.
  - by apply default_keys_of_no_container.
Qed.

Variable is_dir : string -> bool.
Variable is_file : string -> bool.
Variable rglob : string -> list string.
Variable suffix_lower : string -> string.

Local Abbreviation collect :=
  (collect_configs read_text json_loads hcl2_loads yaml_safe_load
     normalize_blocks is_dir is_file rglob suffix_lower).

Lemma collect_dir_omap (entries : list string)
    (result : list (string * value)) :
  collect_dir read_text json_loads hcl2_loads yaml_safe_load normalize_blocks
    suffix_lower entries result
  = result ++
    omap (fun f =>
            if bool_decide (suffix_lower f ∈ config_suffixes) then
              match parse f with
              | Ok parsed => Some (f, parsed)
              | Raise _ => None
              end
            else None) entries.
Proof.
  revert result. induction entries as [|f entries IH]; intros result; cbn.
  - by rewrite app_nil_r.
  - destruct (bool_decide _); [|apply IH].
    destruct (parse f); rewrite IH; [|done]. by rewrite <- app_assoc.
Qed.

Lemma collect_loop_app (paths : list string) (result : list (string * value)) :
  collect_loop read_text json_loads hcl2_loads yaml_safe_load normalize_blocks
    is_dir is_file rglob suffix_lower paths result
  = (found ← collect paths; Ok (result ++ found)).
Proof.
  unfold collect_configs.
  revert result. induction paths as [|p paths IH]; intros result;
    cbn [collect_loop].
  - cbn. by rewrite app_nil_r.
  - destruct (is_dir p).
    + rewrite IH, (IH (collect_dir _ _ _ _ _ _ _ [])), !collect_dir_omap.
      destruct (collect_loop _ _ _ _ _ _ _ _ _ paths []); cbn; [|done].
      by rewrite app_assoc.
    + destruct (is_file p); [|apply IH].
      destruct (parse p); cbn [mbind res_bind]; [|done].
      rewrite IH, (IH ([] ++ _)).
      destruct (collect_loop _ _ _ _ _ _ _ _ _ paths []); cbn; [|done].
      by rewrite <- app_assoc.
Qed.

(** What each path contributes to [collect_configs]: a directory, the
    entries below it that have one of the six suffixes and parse, in the
    order of the traversal, the others being passed over in silence; a
    file, itself with its parsed content, and the exception of
    [parse_file] if it does not parse; a path that is neither, nothing.
    The contributions are concatenated in the order of the paths. *)
Theorem collect_configs_contributions (p : string) (paths : list string) :
  collect (p :: paths)
  = (found ← (if is_dir p then
                Ok (omap (fun f =>
                            if bool_decide (suffix_lower f ∈ config_suffixes)
                            then match parse f with
                                 | Ok parsed => Some (f, parsed)
                                 | Raise _ => None
                                 end
                            else None) (rglob p))
              else if is_file p then
                parsed ← parse p; Ok [(p, parsed)]
              else Ok []);
     rest ← collect paths;
     Ok (found ++ rest))
  /\ collect [] = Ok [].
Proof.
  split; [|done]. unfold collect_configs at 1. cbn [collect_loop].
  destruct (is_dir p).
  - by rewrite collect_loop_app, collect_dir_omap.
  - destruct (is_file p).
    + destruct (parse p); cbn [mbind res_bind]; [|done].
      by rewrite collect_loop_app.
    + rewrite collect_loop_app. cbn.
      by destruct (collect paths).
Qed.

End ParserProperties.

(** ** Instances *)

Lemma not_equals_negates_equals_witness :
  passed <$> evaluate_rule Ref.lib
               (<["operator" := VStr "not_equals"]>
                  (Ex.rule_on "xs" "equals" (VInt 1)))
               (Ex.doc_xs (VInt 2))
  = negb <$> (passed <$> evaluate_rule Ref.lib
                           (<["operator" := VStr "equals"]>
                              (Ex.rule_on "xs" "equals" (VInt 1)))
                           (Ex.doc_xs (VInt 2))).
Proof. apply not_equals_negates_equals. vm_compute. reflexivity. Defined.

Lemma equals_and_not_equals_on_a_list_witness :
  passed <$> evaluate_rule Ref.lib
               (<["operator" := VStr "equals"]>
                  (Ex.rule_on "xs" "equals" (VInt 1)))
               (Ex.doc_xs (VList [VInt 1; VInt 2]))
  = Ok false
  /\ passed <$> evaluate_rule Ref.lib
                  (<["operator" := VStr "not_equals"]>
                     (Ex.rule_on "xs" "equals" (VInt 1)))
                  (Ex.doc_xs (VList [VInt 1; VInt 2]))
     = Ok false.
Proof.
  destruct (equals_and_not_equals_on_a_list Ref.lib
              (Ex.rule_on "xs" "equals" (VInt 1))
              (Ex.doc_xs (VList [VInt 1; VInt 2])) [VInt 1; VInt 2]
              ltac:(vm_compute; reflexivity)) as (Heq & Hne & _).
  split; [exact Heq | exact Hne].
Defined.

Lemma regex_polarity_flips_in_a_list_witness :
  passed <$> evaluate_rule Ref.lib (Ex.rule_on "xs" "regex" (VStr "BEGIN"))
               (Ex.doc_xs (VList [VStr "BEGIN SECRET"]))
  = negb <$> (passed <$> evaluate_rule Ref.lib
                           (Ex.rule_on "xs" "regex" (VStr "BEGIN"))
                           (Ex.doc_xs (VStr "BEGIN SECRET"))).
Proof.
  apply (regex_polarity_flips_in_a_list Ref.lib _ _ _ (VStr "BEGIN SECRET"));
    vm_compute; reflexivity.
Defined.

Lemma in_operator_verdict_witness :
  passed <$> evaluate_rule Ref.lib
               (Ex.rule_on "xs" "in" (VList [VStr "a"; VStr "b"; VStr "c"]))
               (Ex.doc_xs (VStr "b"))
  = Ok true.
Proof.
  destruct (in_operator_verdict Ref.lib
              (Ex.rule_on "xs" "in" (VList [VStr "a"; VStr "b"; VStr "c"]))
              (Ex.doc_xs (VStr "b")) ltac:(vm_compute; reflexivity))
    as (_ & Hsingle & _).
  rewrite (Hsingle [VStr "a"; VStr "b"; VStr "c"]);
    vm_compute; reflexivity.
Defined.

Lemma failed_search_is_null_witness :
  evaluate_rule Ref.lib (Ex.rule_on "xs[" "absent" VNone) (Ex.doc_xs (VInt 1))
  = Ok (make_verdict (Ex.rule_on "xs[" "absent" VNone) true VNone).
Proof.
  destruct (failed_search_is_null Ref.lib (Ex.rule_on "xs[" "absent" VNone)
              (Ex.doc_xs (VInt 1))) as (_ & Habsent & _).
  - intros [v Hv]. vm_compute in Hv. discriminate Hv.
  - apply Habsent. vm_compute. reflexivity.
Defined.

Lemma tls_comparison_on_a_single_value_witness :
  passed <$> evaluate_rule Ref.lib
               (Ex.rule_on "listener[0].tls_min_version" "gt" (VStr "tls11"))
               (Ex.doc_listener (VStr "tls12"))
  = Ok true.
Proof.
  destruct (tls_comparison_on_a_single_value Ref.lib
              (Ex.rule_on "listener[0].tls_min_version" "gt" (VStr "tls11"))
              (Ex.doc_listener (VStr "tls12"))
              ltac:(vm_compute; reflexivity) ltac:(vm_compute; reflexivity))
    as (_ & _ & Hgt & _).
  rewrite Hgt; vm_compute; reflexivity.
Defined.

Lemma tls_comparison_raises_on_a_bad_version_witness :
  evaluate_rule Ref.lib
    (Ex.rule_on "listener[0].tls_min_version" "equals" (VStr "tls12"))
    (Ex.doc_listener (VStr "tls1.2"))
  = Raise ValueError.
Proof.
  apply (tls_comparison_raises_on_a_bad_version Ref.lib _ _ "tls1.2");
    vm_compute; try reflexivity. by left.
Defined.

Lemma fail_level_check_exits_witness :
  fail_level_check (Some "warning")
    [FileReport "vault.hcl"
       [Cfg.verdict_of "info" false; Cfg.verdict_of "high" true;
        Cfg.verdict_of "critical" false]]
  = Some (SystemExit 2).
Proof.
  apply (fail_level_check_exits "warning" 1).
  - reflexivity.
  - repeat constructor; intros Hp; try discriminate Hp;
      eexists; vm_compute; reflexivity.
  - exists (FileReport "vault.hcl"
              [Cfg.verdict_of "info" false; Cfg.verdict_of "high" true;
               Cfg.verdict_of "critical" false]),
      (Cfg.verdict_of "critical" false), 2%nat.
    split; [apply list_elem_of_here|].
    split; [cbn; do 2 apply list_elem_of_further; apply list_elem_of_here|].
    split; [reflexivity|]. split; [vm_compute; reflexivity | lia].
Defined.

Lemma fail_level_check_monotone_witness :
  fail_level_check (Some "info")
    [FileReport "vault.hcl" [Cfg.verdict_of "critical" false]]
  = Some (SystemExit 2).
Proof.
  apply (fail_level_check_monotone "info" "critical" 0 2);
    [reflexivity | reflexivity | lia | vm_compute; reflexivity].
Defined.

Lemma fail_level_check_of_a_failed_rule_witness :
  fail_level_check (Some "info")
    [FileReport "vault.hcl" [make_verdict Cfg.bare_rule false VNone]]
  = Some (SystemExit 2).
Proof.
  assert (Hv : evaluate_rule Ref.lib Cfg.bare_rule (Ex.doc_xs VNone)
               = Ok (make_verdict Cfg.bare_rule false VNone)).
  { vm_compute. reflexivity. }
  assert (Hlevel : severity_order (VStr "info") = inr 0%nat).
  { vm_compute. reflexivity. }
  destruct (fail_level_check_of_a_failed_rule _ _ _ _ "vault.hcl" "info" 0
              Hv (eq_refl false) Hlevel) as (Hdefault & _).
  apply Hdefault. vm_compute. reflexivity.
Defined.

Lemma inject_vault_defaults_dict_witness :
  exists d',
    inject_vault_defaults (VDict (Cfg.vault [VDict Cfg.listener]))
    = Ok (VDict d')
    /\ d' !! "listener"
       = Some (VList [VDict (Cfg.listener ∪ list_to_map listener_defaults)]).
Proof.
  assert (Hd : Cfg.vault [VDict Cfg.listener] !! "listener"
               = Some (VList (VDict <$> [Cfg.listener]))).
  { vm_compute. reflexivity. }
  destruct (inject_vault_defaults_dict _ _ Hd) as (d' & Hd' & Hlistener & _).
  exists d'. split; [exact Hd' | exact Hlistener].
Defined.

Lemma inject_vault_defaults_raises_witness :
  inject_vault_defaults (VDict (Cfg.vault [VNone])) = Raise TypeError.
Proof.
  assert (Hd : Cfg.vault [VNone] !! "listener" = Some (VList [VNone])).
  { vm_compute. reflexivity. }
  apply (inject_vault_defaults_raises _ [VNone] VNone Hd).
  - apply list_elem_of_here.
  - by left.
Defined.

Lemma parse_file_rejects_a_bad_listener_witness :
  parse_file (fun _ => Ok "listener: [null]")
    (fun _ => Raise LibraryError) (fun _ => Raise LibraryError)
    (fun _ => Ok (VDict (Cfg.vault [VNone])))
    (fun _ => Raise LibraryError) "vault.yaml"
  = Raise ValueError.
Proof.
  assert (Hd : Cfg.vault [VNone] !! "listener" = Some (VList [VNone])).
  { vm_compute. reflexivity. }
  assert (Hs : is_Some (Cfg.vault [VNone] !! "storage")).
  { exists (VDict ∅). vm_compute. reflexivity. }
  apply (parse_file_rejects_a_bad_listener _ _ _ _ _ "vault.yaml"
           "listener: [null]" (Cfg.vault [VNone]) [VNone] VNone);
    try reflexivity; try done.
  - intros [v Hv]. discriminate Hv.
  - intros [v Hv]. discriminate Hv.
  - apply list_elem_of_here.
  - by left.
Defined.
